(** * Perk API: the request handlers of [perkController.js]

    A shallow embedding of the six handlers of
    [server/src/controllers/perkController.js] and of the validation they
    run, with the properties of the create, update and filter paths.

    - Request bodies are parsed JSON: [json], objects as the list of their own
      properties in enumeration order.  A property read [o.k] is [get o k],
      [None] standing for [undefined].
    - A JavaScript number is the rational it denotes, or an infinity (a JSON
      literal out of the double range parses to one); JSON has no NaN.
    - A character of a [string] stands for one UTF-16 code unit, so that
      [String.length] is JavaScript's [.length].
    - A handler is a program over the operations of the Mongoose model
      ([prog]): it ends in a response or in [next(err)], and every call of
      the store is a [Call] node, so that "the store is not called" reads
      "the handler is a [Ret]". *)

From Stdlib Require Import List String Ascii Bool ZArith QArith Lia.
From Stdlib Require Import DecimalString.
From Stdlib Require Import Orders Sorting.Sorted Sorting.Permutation Sorting.Mergesort.
Import ListNotations.

Set Warnings "-register-all".
Local Open Scope string_scope.
Local Open Scope Z_scope.

(** ** JavaScript values *)

Inductive number : Type :=
| Fin (q : Q)
| PosInf
| NegInf.

Inductive json : Type :=
| JNull
| JBool (b : bool)
| JNumber (n : number)
| JString (s : string)
| JArray (items : list json)
| JObject (props : list (string * json)).

Definition object : Type := list (string * json).

(** [o.key] on a parsed JSON object: [None] is [undefined]. *)
Fixpoint get (o : object) (key : string) : option json :=
  match o with
  | [] => None
  | (k, v) :: rest => if String.eqb k key then Some v else get rest key
  end.

(** [Object.keys(o)] *)
Definition keys (o : object) : list string := map fst o.

(** [o[key] = v]: overwrites in place, or appends a new property. *)
Fixpoint set (o : object) (key : string) (v : json) : object :=
  match o with
  | [] => [(key, v)]
  | (k, w) :: rest =>
      if String.eqb k key then (k, v) :: rest else (k, w) :: set rest key v
  end.

Definition num (z : Z) : json := JNumber (Fin (inject_Z z)).

(** ToBoolean *)
Definition truthy (v : option json) : bool :=
  match v with
  | None => false
  | Some JNull => false
  | Some (JBool b) => b
  | Some (JNumber (Fin q)) => negb (Qeq_bool q 0)
  | Some (JNumber _) => true
  | Some (JString s) => negb (String.eqb s "")
  | Some (JArray _) => true
  | Some (JObject _) => true
  end.

(** [typeof v] *)
Definition typeof (v : option json) : string :=
  match v with
  | None => "undefined"
  | Some JNull => "object"
  | Some (JBool _) => "boolean"
  | Some (JNumber _) => "number"
  | Some (JString _) => "string"
  | Some (JArray _) => "object"
  | Some (JObject _) => "object"
  end.

(** [x < y] and [x > y] on numbers. *)
Definition num_ltb (x y : number) : bool :=
  match x, y with
  | Fin a, Fin b => negb (Qle_bool b a)
  | NegInf, Fin _ => true
  | NegInf, PosInf => true
  | Fin _, PosInf => true
  | _, _ => false
  end.

Definition num_gtb (x y : number) : bool := num_ltb y x.

(** [v < z] and [v > z] for a value whose [typeof] is ["number"]; the source
    evaluates them behind [typeof v !== 'number' ||] only. *)
Definition lt_num (v : option json) (z : Z) : bool :=
  match v with
  | Some (JNumber n) => num_ltb n (Fin (inject_Z z))
  | _ => false
  end.

Definition gt_num (v : option json) (z : Z) : bool :=
  match v with
  | Some (JNumber n) => num_gtb n (Fin (inject_Z z))
  | _ => false
  end.

(** [list.includes(key)] on an array of strings, for a string ... *)
Definition includes (l : list string) (key : string) : bool :=
  existsb (String.eqb key) l.

(** ... and for any value: only a string is equal to a string. *)
Definition includes_value (l : list string) (v : option json) : bool :=
  match v with
  | Some (JString s) => includes l s
  | _ => false
  end.

(** [v === z] for a number literal [z]. *)
Definition strict_eq_num (v : option json) (z : Z) : bool :=
  match v with
  | Some (JNumber (Fin q)) => Qeq_bool q (inject_Z z)
  | _ => false
  end.

(** ** Documents, errors and responses *)

(** A document of the Perk collection, as spec section 3 lists its
    attributes. *)
Record perk : Type := mkPerk {
  _id : string;
  title : string;
  description : string;
  category : string;
  discountPercent : Q;
  merchant : option string;
  createdAt : Z
}.

(** A thrown error: what the handlers read of it is [err.code]. *)
Record error : Type := mkError {
  name : string;
  code : option json
}.

Inductive result (A : Type) : Type :=
| Ok (a : A)
| Throw (err : error).
Arguments Ok {A} a.
Arguments Throw {A} err.

(** The JSON payloads the handlers send. *)
Inductive payload : Type :=
| Message (message : string)                          (* { message } *)
| MessageErrors (message : string) (errors : list string) (* { message, errors } *)
| PerkList (perks : list perk)                        (* perks *)
| PerkDoc (doc : perk)                                (* { perk } *)
| OkTrue.                                             (* { ok: true } *)

(** How a handler ends: [res.status(s).json(p)], or [next(err)]. *)
Inductive outcome : Type :=
| Respond (status : Z) (p : payload)
| Next (err : error).

(** ** The operations of the Mongoose model *)

(** The options of [findByIdAndUpdate]. *)
Record update_options : Type := mkOptions {
  new : bool;
  runValidators : bool
}.

Inductive storeE : Type -> Type :=
(* Perk.find(filter).sort({ createdAt: -1 }); the filter is {} or { title } *)
| Find (by_title : option string) : storeE (result (list perk))
| FindById (id : string) : storeE (result (option perk))
| Create (doc : object) : storeE (result perk)
(* Perk.findByIdAndUpdate(id, { $set: updates }, opts) *)
| FindByIdAndUpdate (id : string) (updates : object) (opts : update_options)
    : storeE (result (option perk))
| FindByIdAndDelete (id : string) : storeE (result (option perk)).

(** Handler programs: a result, or a store call and its continuation (the
    code after the [await]). *)
Inductive prog (R : Type) : Type :=
| Ret (r : R)
| Call {X : Type} (e : storeE X) (k : X -> prog R).
Arguments Ret {R} r.
Arguments Call {R X} e k.

Section Run.
Context {S : Type}.
Variable exec : forall X, storeE X -> S -> X * S.

Fixpoint run {R : Type} (p : prog R) (s : S) : R * S :=
  match p with
  | Ret r => (r, s)
  | Call e k => let (x, s') := exec _ e s in run (k x) s'
  end.
End Run.

(** ** Joi: the part of the library that [perkSchema] uses

    [Joi.object(keys).validate(body)] with the default preferences
    ([abortEarly], [convert], unknown keys refused): the keys of the schema
    are validated in the order they are declared, the first error ends the
    validation, and the keys of the body that the schema does not declare are
    refused after them. *)

Inductive validation (A : Type) : Type :=
| Valid (value : A)
| Invalid (message : string).
Arguments Valid {A} value.
Arguments Invalid {A} message.

Inductive joi_type : Type := JoiString | JoiNumber.

Inductive joi_rule : Type :=
| Min (limit : Z)
| Max (limit : Z).

Record joi_schema : Type := mkSchema {
  base : joi_type;
  required : bool;          (* .required() *)
  valids : list string;     (* the values of .allow(...) and .valid(...) *)
  only : bool;              (* .valid(...): nothing else is accepted *)
  default : option json;    (* .default(v) *)
  rules : list joi_rule     (* .min(n), .max(n), in the order written *)
}.

Definition Joi_string : joi_schema := mkSchema JoiString false [] false None [].
Definition Joi_number : joi_schema := mkSchema JoiNumber false [] false None [].

Definition Joi_min (limit : Z) (s : joi_schema) : joi_schema :=
  mkSchema (base s) (required s) (valids s) (only s) (default s)
           (rules s ++ [Min limit]).
Definition Joi_max (limit : Z) (s : joi_schema) : joi_schema :=
  mkSchema (base s) (required s) (valids s) (only s) (default s)
           (rules s ++ [Max limit]).
Definition Joi_required (s : joi_schema) : joi_schema :=
  mkSchema (base s) true (valids s) (only s) (default s) (rules s).
Definition Joi_allow (v : string) (s : joi_schema) : joi_schema :=
  mkSchema (base s) (required s) (valids s ++ [v]) (only s) (default s) (rules s).
Definition Joi_valid (vs : list string) (s : joi_schema) : joi_schema :=
  mkSchema (base s) (required s) (valids s ++ vs) true (default s) (rules s).
Definition Joi_default (v : json) (s : joi_schema) : joi_schema :=
  mkSchema (base s) (required s) (valids s) (only s) (Some v) (rules s).

(** The label of a key in a message: the key between double quotes. *)
Definition dquote : string := String "034"%char EmptyString.
Definition label (key : string) : string := dquote ++ key ++ dquote.

Definition show_Z (z : Z) : string := NilZero.string_of_int (Z.to_int z).

Definition MAX_SAFE_INTEGER : Z := 9007199254740991.

(** What Joi's conversion makes of a string given for a number: no numeric
    string, a numeric string that does not round-trip ([number.unsafe]), or
    the number. *)
Inductive coerced : Type :=
| NoMatch
| Unsafe
| Parsed (n : number).

Definition is_min0 (r : joi_rule) : bool :=
  match r with Min limit => limit =? 0 | Max _ => false end.

Fixpoint string_rules (key : string) (rs : list joi_rule) (s : string)
  : option string :=
  match rs with
  | [] => None
  | Min limit :: rest =>
      if Z.of_nat (String.length s) <? limit
      then Some (label key ++ " length must be at least " ++ show_Z limit
                 ++ " characters long")
      else string_rules key rest s
  | Max limit :: rest =>
      if limit <? Z.of_nat (String.length s)
      then Some (label key ++ " length must be less than or equal to "
                 ++ show_Z limit ++ " characters long")
      else string_rules key rest s
  end.

Fixpoint number_rules (key : string) (rs : list joi_rule) (q : Q)
  : option string :=
  match rs with
  | [] => None
  | Min limit :: rest =>
      if negb (Qle_bool (inject_Z limit) q)
      then Some (label key ++ " must be greater than or equal to " ++ show_Z limit)
      else number_rules key rest q
  | Max limit :: rest =>
      if negb (Qle_bool q (inject_Z limit))
      then Some (label key ++ " must be less than or equal to " ++ show_Z limit)
      else number_rules key rest q
  end.

Definition only_message (key : string) (vs : list string) : string :=
  label key ++ " must be "
  ++ (if Nat.eqb (List.length vs) 1 then "" else "one of ")
  ++ "[" ++ String.concat ", " vs ++ "]".

Section Joi.
(** Joi's conversion of a numeric string, a regular expression and
    [parseFloat] in the library. *)
Variable numberOfString : string -> coerced.

(** The base type and the rules, for a value that is present and is not one
    of [valids]. *)
Definition validate_base (key : string) (sch : joi_schema) (v : json)
  : validation (option json) :=
  match base sch with
  | JoiString =>
      match v with
      | JString s =>
          if String.eqb s "" && negb (existsb is_min0 (rules sch))
          then Invalid (label key ++ " is not allowed to be empty")
          else match string_rules key (rules sch) s with
               | Some m => Invalid m
               | None => Valid (Some v)
               end
      | _ => Invalid (label key ++ " must be a string")
      end
  | JoiNumber =>
      match v with
      | JNumber (Fin q) =>
          if Qle_bool q (inject_Z MAX_SAFE_INTEGER)
             && Qle_bool (inject_Z (- MAX_SAFE_INTEGER)) q
          then match number_rules key (rules sch) q with
               | Some m => Invalid m
               | None => Valid (Some v)
               end
          else Invalid (label key ++ " must be a safe number")
      | JNumber _ => Invalid (label key ++ " cannot be infinity")
      | _ => Invalid (label key ++ " must be a number")
      end
  end.

(** Presence, the allowed values, then the base type. *)
Definition validate_present (key : string) (sch : joi_schema)
           (item : option json) : validation (option json) :=
  match item with
  | None =>
      if required sch then Invalid (label key ++ " is required")
      else Valid (default sch)
  | Some v =>
      if includes_value (valids sch) item then Valid item
      else if only sch then Invalid (only_message key (valids sch))
      else validate_base key sch v
  end.

(** [schema.$_validate(item)]: the conversion comes first. *)
Definition validate_item (key : string) (sch : joi_schema)
           (item : option json) : validation (option json) :=
  match base sch, item with
  | JoiNumber, Some (JString s) =>
      match numberOfString s with
      | NoMatch => validate_present key sch item
      | Unsafe => Invalid (label key ++ " must be a safe number")
      | Parsed n => validate_present key sch (Some (JNumber n))
      end
  | _, _ => validate_present key sch item
  end.

(** The declared keys, in order; a result is written back into the value. *)
Fixpoint validate_keys (schema : list (string * joi_schema)) (value : object)
  : validation object :=
  match schema with
  | [] => Valid value
  | (key, sch) :: rest =>
      match validate_item key sch (get value key) with
      | Invalid m => Invalid m
      | Valid None => validate_keys rest value
      | Valid (Some v) => validate_keys rest (set value key v)
      end
  end.

(** The first key of the body that the schema does not declare. *)
Definition unknown_key (schema : list (string * joi_schema)) (value : object)
  : option string :=
  find (fun k => negb (includes (map fst schema) k)) (keys value).

(** [Joi.object(schema).validate(value)] *)
Definition validate (schema : list (string * joi_schema)) (value : object)
  : validation object :=
  match validate_keys schema value with
  | Invalid m => Invalid m
  | Valid value' =>
      match unknown_key schema value with
      | Some k => Invalid (label k ++ " is not allowed")
      | None => Valid value'
      end
  end.
End Joi.

(** ** The controller *)

Definition perkSchema : list (string * joi_schema) :=
  [ ("title", Joi_required (Joi_min 2 Joi_string));
    ("description", Joi_allow "" Joi_string);
    ("category",
      Joi_default (JString "other")
        (Joi_valid ["food"; "tech"; "travel"; "fitness"; "other"] Joi_string));
    ("discountPercent", Joi_default (num 0) (Joi_max 100 (Joi_min 0 Joi_number)));
    ("merchant", Joi_allow "" Joi_string) ].

Definition allowedUpdates : list string :=
  ["title"; "description"; "category"; "discountPercent"; "merchant"].

Definition categories : list string :=
  ["food"; "tech"; "travel"; "fitness"; "other"].

(** [errors.push(m)] when [c] holds. *)
Definition push_if (c : bool) (m : string) (errors : list string) : list string :=
  if c then errors ++ [m] else errors.

(** The field checks of [updatePerk]: the array [errors] after the five
    [if] statements. *)
Definition updateErrors (updates : object) : list string :=
  let errors := [] in
  let errors :=
    push_if (truthy (get updates "title")
             && negb (String.eqb (typeof (get updates "title")) "string"))
            "Title must be a string" errors in
  let errors :=
    push_if (truthy (get updates "description")
             && negb (String.eqb (typeof (get updates "description")) "string"))
            "Description must be a string" errors in
  let errors :=
    push_if (truthy (get updates "category")
             && negb (includes_value categories (get updates "category")))
            "Category must be one of: food, tech, travel, fitness, other" errors in
  let errors :=
    match get updates "discountPercent" with
    | None => errors
    | Some _ =>
        push_if (negb (String.eqb (typeof (get updates "discountPercent")) "number")
                 || lt_num (get updates "discountPercent") 0
                 || gt_num (get updates "discountPercent") 100)
                "Discount percent must be a number between 0 and 100" errors
    end in
  let errors :=
    push_if (truthy (get updates "merchant")
             && negb (String.eqb (typeof (get updates "merchant")) "string"))
            "Merchant must be a string" errors in
  errors.

Section Controller.
(** [mongoose.Types.ObjectId.isValid], of the driver. *)
Variable isValid : string -> bool.
Variable numberOfString : string -> coerced.

(** [req.query.title] is a string, or [undefined]. *)
Definition filterPerks (title : option string) : prog outcome :=
  match title with
  | Some t =>
      if truthy (Some (JString t)) then
        Call (Find (Some t)) (fun r =>
          match r with
          | Ok perks => Ret (Respond 200 (PerkList perks))
          | Throw err => Ret (Next err)
          end)
      else Ret (Respond 400 (Message "Title query parameter is required"))
  | None => Ret (Respond 400 (Message "Title query parameter is required"))
  end.

Definition getPerk (id : string) : prog outcome :=
  Call (FindById id) (fun r =>
    match r with
    | Ok None => Ret (Respond 404 (Message "Perk not found"))
    | Ok (Some perk) => Ret (Respond 200 (PerkDoc perk))
    | Throw err => Ret (Next err)
    end).

Definition getAllPerks : prog outcome :=
  Call (Find None) (fun r =>
    match r with
    | Ok perks => Ret (Respond 200 (PerkList perks))
    | Throw err => Ret (Next err)
    end).

Definition createPerk (body : object) : prog outcome :=
  match validate numberOfString perkSchema body with
  | Invalid message => Ret (Respond 400 (Message message))
  | Valid value =>
      Call (Create value) (fun r =>
        match r with
        | Ok doc => Ret (Respond 201 (PerkDoc doc))
        | Throw err =>
            if strict_eq_num (code err) 11000
            then Ret (Respond 409 (Message "Duplicate perk for this merchant"))
            else Ret (Next err)
        end)
  end.

Definition updatePerk (id : string) (updates : object) : prog outcome :=
  if negb (isValid id) then Ret (Respond 400 (Message "Invalid perk ID"))
  else
    let updateKeys := keys updates in
    let isValidUpdate := forallb (fun key => includes allowedUpdates key) updateKeys in
    if negb isValidUpdate
    then Ret (Respond 400 (Message "Invalid fields provided for update"))
    else
      let errors := updateErrors updates in
      if (0 <? List.length errors)%nat
      then Ret (Respond 400 (MessageErrors "Validation errors" errors))
      else
        Call (FindByIdAndUpdate id updates (mkOptions true true)) (fun r =>
          match r with
          | Ok None => Ret (Respond 404 (Message "Perk not found"))
          | Ok (Some perk) => Ret (Respond 200 (PerkDoc perk))
          | Throw err => Ret (Next err)
          end).

Definition deletePerk (id : string) : prog outcome :=
  Call (FindByIdAndDelete id) (fun r =>
    match r with
    | Ok None => Ret (Respond 404 (Message "Perk not found"))
    | Ok (Some _) => Ret (Respond 200 OkTrue)
    | Throw err => Ret (Next err)
    end).

(** The requests of the API and the handler each is routed to. *)
Inductive request : Type :=
| GetAllPerks
| FilterPerks (title : option string)
| GetPerk (id : string)
| CreatePerk (body : object)
| UpdatePerk (id : string) (body : object)
| DeletePerk (id : string).

Definition handle (r : request) : prog outcome :=
  match r with
  | GetAllPerks => getAllPerks
  | FilterPerks title => filterPerks title
  | GetPerk id => getPerk id
  | CreatePerk body => createPerk body
  | UpdatePerk id body => updatePerk id body
  | DeletePerk id => deletePerk id
  end.
End Controller.

(** An identifier is well formed when it is 24 hexadecimal digits, as
    [ObjectId.isValid] of the current driver decides for a string. *)
Definition is_hex (c : ascii) : bool :=
  let n := nat_of_ascii c in
  ((48 <=? n) && (n <=? 57) || (65 <=? n) && (n <=? 70)
   || (97 <=? n) && (n <=? 102))%nat.

Definition isValid24 (id : string) : bool :=
  Nat.eqb (String.length id) 24 && forallb is_hex (list_ascii_of_string id).

(** A conversion that takes no string for a number. *)
Definition noNumericString (s : string) : coerced := NoMatch.

(** The constraint of each updatable field, as the specification words it
    (section 4.2 and the data model): text for title, description and
    merchant, a member of the fixed set for category, a number within 0 and
    100 for discountPercent.  [spec_violates field v] holds when the value
    [v] given for [field] breaks it. *)
Definition spec_violates (field : string) (v : json) : bool :=
  if String.eqb field "category" then negb (includes_value categories (Some v))
  else if String.eqb field "discountPercent" then
    match v with
    | JNumber (Fin q) => negb (Qle_bool (inject_Z 0) q && Qle_bool q (inject_Z 100))
    | _ => true
    end
  else
    match v with
    | JString _ => false
    | _ => true
    end.

(** The message [updatePerk] has for a field. *)
Definition violation_message (field : string) : string :=
  if String.eqb field "title" then "Title must be a string"
  else if String.eqb field "description" then "Description must be a string"
  else if String.eqb field "category"
       then "Category must be one of: food, tech, travel, fitness, other"
  else if String.eqb field "discountPercent"
       then "Discount percent must be a number between 0 and 100"
  else "Merchant must be a string".

(** ** The Perk collection

    The Mongoose model [Perk] is declared in [models/Perk.js], which is not
    among the sources of the controller.  The definitions of this part are
    modelled from the specification; the controller above does not depend on
    them, only the statements about what the collection holds or returns
    do. *)

Definition bind {A B : Type} (r : result A) (f : A -> result B) : result B :=
  match r with
  | Ok a => f a
  | Throw err => Throw err
  end.

Notation "x <- r ;; k" := (bind r (fun x => k))
  (at level 61, r at next level, right associativity).

Definition castError : error := mkError "CastError" None.
Definition validationError : error := mkError "ValidationError" None.
Definition duplicateKeyError : error := mkError "MongoServerError" (Some (num 11000)).

(** Modelled from the spec: the constraints of the Perk attributes that the
    missing schema declares (section 3: title of length at least 2, category
    in the fixed set, discountPercent within 0 and 100). *)
Definition title_ok (s : string) : bool := (2 <=? String.length s)%nat.
Definition category_ok (s : string) : bool := includes categories s.
Definition discountPercent_ok (q : Q) : bool :=
  Qle_bool (inject_Z 0) q && Qle_bool q (inject_Z 100).

(** The attributes a write sets, typed as the schema types them. *)
Record changes : Type := mkChanges {
  set_title : option string;
  set_description : option string;
  set_category : option string;
  set_discountPercent : option Q;
  set_merchant : option string
}.

(** Modelled from the spec: a written value has the type of its attribute
    (text or number) or the write fails; the constraint of the attribute is
    checked when the validators run.  Mongoose's conversions between types
    are left out: a value of another type fails. *)
Definition cast_string (validate : bool) (ok : string -> bool) (v : option json)
  : result (option string) :=
  match v with
  | None => Ok None
  | Some (JString s) =>
      if negb validate || ok s then Ok (Some s) else Throw validationError
  | Some _ => Throw castError
  end.

Definition cast_number (validate : bool) (ok : Q -> bool) (v : option json)
  : result (option Q) :=
  match v with
  | None => Ok None
  | Some (JNumber (Fin q)) =>
      if negb validate || ok q then Ok (Some q) else Throw validationError
  | Some _ => Throw castError
  end.

(** Modelled from the spec: the five editable attributes of a written object;
    [_id] and [createdAt] are never set by a client. *)
Definition cast (validate : bool) (o : object) : result changes :=
  t <- cast_string validate title_ok (get o "title") ;;
  d <- cast_string validate (fun _ => true) (get o "description") ;;
  c <- cast_string validate category_ok (get o "category") ;;
  n <- cast_number validate discountPercent_ok (get o "discountPercent") ;;
  m <- cast_string validate (fun _ => true) (get o "merchant") ;;
  Ok (mkChanges t d c n m).

Definition or_else {A : Type} (o : option A) (a : A) : A :=
  match o with
  | Some x => x
  | None => a
  end.

Definition assign (c : changes) (p : perk) : perk :=
  mkPerk (_id p)
         (or_else (set_title c) (title p))
         (or_else (set_description c) (description p))
         (or_else (set_category c) (category p))
         (or_else (set_discountPercent c) (discountPercent p))
         (match set_merchant c with Some m => Some m | None => merchant p end)
         (createdAt p).

(** The collection: its documents, and the count of the documents created so
    far, from which the identifier and the creation time of the next one are
    taken. *)
Record collection : Type := mkCollection {
  docs : list perk;
  created : N
}.

Definition hex_digit (n : N) : ascii :=
  match n with
  | 0%N => "0" | 1%N => "1" | 2%N => "2" | 3%N => "3"
  | 4%N => "4" | 5%N => "5" | 6%N => "6" | 7%N => "7"
  | 8%N => "8" | 9%N => "9" | 10%N => "a" | 11%N => "b"
  | 12%N => "c" | 13%N => "d" | 14%N => "e" | _ => "f"
  end%char.

Fixpoint hex (digits : nat) (n : N) (acc : string) : string :=
  match digits with
  | O => acc
  | Datatypes.S d => hex d (N.div n 16) (String (hex_digit (N.modulo n 16)) acc)
  end.

(** Modelled from the spec: the identifier is opaque, assigned by the store;
    here the 24 hexadecimal digits of the creation count. *)
Definition newId (n : N) : string := hex 24 n "".

Definition has_id (id : string) (p : perk) : bool := String.eqb (_id p) id.

Definition option_eqb (a b : option string) : bool :=
  match a, b with
  | Some x, Some y => String.eqb x y
  | None, None => true
  | _, _ => false
  end.

Definition same_key (t : string) (m : option string) (p : perk) : bool :=
  String.eqb (title p) t && option_eqb (merchant p) m.

(** Newest first. *)
Module NewestFirst <: TotalLeBool.
Definition t : Type := perk.
Definition leb (p q : perk) : bool := createdAt q <=? createdAt p.
Lemma leb_total : forall p q, leb p q = true \/ leb q p = true.
Proof.
  intros p q. unfold leb.
  destruct (Z.le_ge_cases (createdAt q) (createdAt p)) as [H | H];
    [left | right]; now apply Z.leb_le.
Qed.
End NewestFirst.

Module PerkSort := Sort NewestFirst.

Fixpoint replace (id : string) (p' : perk) (l : list perk) : list perk :=
  match l with
  | [] => []
  | p :: rest => if has_id id p then p' :: rest else p :: replace id p' rest
  end.

Fixpoint remove (id : string) (l : list perk) : list perk :=
  match l with
  | [] => []
  | p :: rest => if has_id id p then rest else p :: remove id rest
  end.

(** Modelled from the spec: [findByExactField], and [findAll], both sorted by
    creation time descending (section 6). *)
Definition store_find (by_title : option string) (c : collection) : list perk :=
  PerkSort.sort
    (match by_title with
     | Some t => filter (fun p => String.eqb (title p) t) (docs c)
     | None => docs c
     end).

(** Modelled from the spec: [insert(record) -> record | duplicate-error]; the
    store assigns [id] and [createdAt], fills the defaults of section 3 and
    refuses a second document with the same title and merchant. *)
Definition store_create (doc : object) (c : collection) : result perk * collection :=
  match cast true doc with
  | Throw err => (Throw err, c)
  | Ok ch =>
      match set_title ch with
      | None => (Throw validationError, c)
      | Some t =>
          if existsb (same_key t (set_merchant ch)) (docs c)
          then (Throw duplicateKeyError, c)
          else
            let p := mkPerk (newId (created c)) t
                            (or_else (set_description ch) "")
                            (or_else (set_category ch) "other")
                            (or_else (set_discountPercent ch) (inject_Z 0))
                            (set_merchant ch)
                            (Z.of_N (created c)) in
            (Ok p, mkCollection (docs c ++ [p]) (N.succ (created c)))
      end
  end.

(** Modelled from the spec: [updateById(id, partialFields) -> record | none].
    The options are those of the call in the source: with [runValidators] the
    constraints of the attributes are checked on the fields written, with
    [new] the document after the update is returned. *)
Definition store_update (id : string) (updates : object) (opts : update_options)
           (c : collection) : result (option perk) * collection :=
  match cast (runValidators opts) updates with
  | Throw err => (Throw err, c)
  | Ok ch =>
      match find (has_id id) (docs c) with
      | None => (Ok None, c)
      | Some p =>
          let p' := assign ch p in
          (Ok (Some (if new opts then p' else p)),
           mkCollection (replace id p' (docs c)) (created c))
      end
  end.

(** Modelled from the spec: [deleteById]. *)
Definition store_delete (id : string) (c : collection)
  : result (option perk) * collection :=
  match find (has_id id) (docs c) with
  | None => (Ok None, c)
  | Some p => (Ok (Some p), mkCollection (remove id (docs c)) (created c))
  end.

(** Modelled from the spec: the Record Store of section 6, answering the
    operations of the model. *)
Definition exec (X : Type) (e : storeE X) (c : collection) : X * collection :=
  match e in storeE X return X * collection with
  | Find by_title => (Ok (store_find by_title c), c)
  | FindById id => (Ok (find (has_id id) (docs c)), c)
  | Create doc => store_create doc c
  | FindByIdAndUpdate id updates opts => store_update id updates opts c
  | FindByIdAndDelete id => store_delete id c
  end.

(** The record invariant on titles (section 3): every document of the
    collection has a title of two characters or more. *)
Definition title_inv (c : collection) : Prop :=
  forall p, In p (docs c) -> (2 <= String.length (title p))%nat.

(** A collection of one and of two documents, for the examples. *)
Definition gym : perk :=
  mkPerk (newId 0) "Gym" "" "fitness" (inject_Z 10) (Some "Acme") 0.

Definition gym_pass : perk :=
  mkPerk (newId 0) "Gym pass" "" "fitness" (inject_Z 10) (Some "Acme") 0.

Definition cafe : perk :=
  mkPerk (newId 1) "Cafe" "Free coffee" "food" (inject_Z 5) None 1.

(** ** Reading a handler

    What a handler asks of the store first, whether it ends after that one
    call, and a store answer that is a thrown error. *)

Inductive op_kind : Type := Reads | Inserts | Updates | Deletes.

Definition kind {X : Type} (e : storeE X) : op_kind :=
  match e with
  | Find _ => Reads
  | FindById _ => Reads
  | Create _ => Inserts
  | FindByIdAndUpdate _ _ _ => Updates
  | FindByIdAndDelete _ => Deletes
  end.

Definition first_op {R : Type} (p : prog R) : option op_kind :=
  match p with
  | Ret _ => None
  | Call e _ => Some (kind e)
  end.

Definition at_most_one_call {R : Type} (p : prog R) : Prop :=
  match p with
  | Ret _ => True
  | Call _ k => forall x, exists r, k x = Ret r
  end.

(** The rejected promise of an operation. *)
Definition thrown {X : Type} (e : storeE X) (err : error) : X :=
  match e in storeE X return X with
  | Find _ => Throw err
  | FindById _ => Throw err
  | Create _ => Throw err
  | FindByIdAndUpdate _ _ _ => Throw err
  | FindByIdAndDelete _ => Throw err
  end.

(** The operation each request is for, and the status codes its handler
    sends. *)
Definition request_kind (r : request) : op_kind :=
  match r with
  | GetAllPerks => Reads
  | FilterPerks _ => Reads
  | GetPerk _ => Reads
  | CreatePerk _ => Inserts
  | UpdatePerk _ _ => Updates
  | DeletePerk _ => Deletes
  end.

Definition statuses (r : request) : list Z :=
  match r with
  | GetAllPerks => [200]
  | FilterPerks _ => [200; 400]
  | GetPerk _ => [200; 404]
  | CreatePerk _ => [201; 400; 409]
  | UpdatePerk _ _ => [200; 400; 404]
  | DeletePerk _ => [200; 404]
  end.


(** A store on which every operation throws [err]. *)
Definition failing (err : error) (X : Type) (e : storeE X) (s : unit) : X * unit :=
  (thrown e err, s).

(** * Properties *)

(** ** Objects *)

Lemma get_set_same (o : object) (key : string) (v : json) :
  get (set o key v) key = Some v.
Proof.
  induction o as [| [k w] rest IH]; simpl.
  - now rewrite String.eqb_refl.
  - destruct (String.eqb k key) eqn:E; simpl; rewrite E; auto.
Qed.

Lemma get_set_other (o : object) (key key' : string) (v : json) :
  key <> key' -> get (set o key v) key' = get o key'.
Proof.
  intros Hne. induction o as [| [k w] rest IH]; simpl.
  - destruct (String.eqb_spec key key'); congruence.
  - destruct (String.eqb_spec k key) as [-> | Hk]; simpl.
    + destruct (String.eqb_spec key key'); congruence.
    + now rewrite IH.
Qed.

Lemma in_keys_get (o : object) (key : string) :
  In key (keys o) -> exists v, get o key = Some v.
Proof.
  induction o as [| [k w] rest IH]; simpl; [tauto |].
  intros [-> | Hin].
  - rewrite String.eqb_refl. eauto.
  - destruct (String.eqb k key); eauto.
Qed.

Lemma get_in_keys (o : object) (key : string) (v : json) :
  get o key = Some v -> In key (keys o).
Proof.
  induction o as [| [k w] rest IH]; simpl; [discriminate |].
  destruct (String.eqb_spec k key); auto.
Qed.

Lemma includes_In (l : list string) (key : string) :
  includes l key = true <-> In key l.
Proof.
  unfold includes. rewrite existsb_exists. split.
  - intros [x [Hin Heq]]. apply String.eqb_eq in Heq. now subst.
  - intros Hin. exists key. now rewrite String.eqb_refl.
Qed.

(** ** filterPerks *)

(** C9.  A filter request whose [title] parameter is present and empty is
    answered 400 "Title query parameter is required"; the handler makes no
    call of the store (it is a [Ret]), so no query for the empty title is
    run. *)
Theorem filterPerks_empty_title_required :
  filterPerks (Some "") =
  Ret (Respond 400 (Message "Title query parameter is required")).
Proof. reflexivity. Qed.

(** ** updatePerk: the identifier and the whitelist *)

Lemma isValidUpdate_false (updates : object) :
  (exists key, In key (keys updates) /\ ~ In key allowedUpdates) ->
  forallb (fun key => includes allowedUpdates key) (keys updates) = false.
Proof.
  intros [key [Hin Hout]].
  destruct (forallb _ (keys updates)) eqn:E; [| reflexivity].
  rewrite forallb_forall in E. apply E in Hin.
  now apply includes_In in Hin.
Qed.

Lemma isValidUpdate_true (updates : object) :
  (forall key, In key (keys updates) -> In key allowedUpdates) ->
  forallb (fun key => includes allowedUpdates key) (keys updates) = true.
Proof.
  intros H. apply forallb_forall. intros key Hin.
  apply includes_In. auto.
Qed.

(** C2, as the code has it.  With a well-formed identifier, a body with a key
    outside the five updatable fields is answered by the single 400 message
    "Invalid fields provided for update"; with a malformed identifier the
    answer is the 400 message "Invalid perk ID".  In both cases the handler
    is a [Ret]: the store is not called. *)
Theorem updatePerk_rejects_disallowed_field
  (isValid : string -> bool) (id : string) (updates : object) :
  (exists key, In key (keys updates) /\ ~ In key allowedUpdates) ->
  updatePerk isValid id updates =
  Ret (Respond 400
         (Message (if isValid id then "Invalid fields provided for update"
                   else "Invalid perk ID"))).
Proof.
  intros Hkey. unfold updatePerk.
  destruct (isValid id); cbn [negb]; [| reflexivity].
  now rewrite (isValidUpdate_false updates Hkey).
Qed.

Lemma updatePerk_rejects_disallowed_field_witness :
  updatePerk isValid24 "64b7f0c2a1d3e4f5a6b7c8d9" [("createdAt", num 0)] =
  Ret (Respond 400 (Message "Invalid fields provided for update")).
Proof.
  apply (updatePerk_rejects_disallowed_field isValid24
           "64b7f0c2a1d3e4f5a6b7c8d9" [("createdAt", num 0)]).
  exists "createdAt". split; [simpl; auto |].
  unfold allowedUpdates. simpl. intuition discriminate.
Defined.

(** C2 as stated fails: the body has a key outside the updatable fields, and
    the answer does not name the invalid fields, the identifier being refused
    first. *)
Lemma updatePerk_disallowed_field_invalid_id :
  let updates := [("createdAt", num 0)] in
  (exists key, In key (keys updates) /\ ~ In key allowedUpdates) /\
  updatePerk isValid24 "42" updates
  <> Ret (Respond 400 (Message "Invalid fields provided for update")).
Proof.
  split.
  - exists "createdAt". split; [simpl; auto |].
    unfold allowedUpdates. simpl. intuition discriminate.
  - vm_compute. discriminate.
Qed.

(** ** createPerk: the title *)

(** C5.  A create request without a title, or with a title of length 0 or 1,
    is answered 400 with Joi's message; the handler is a [Ret], the insert is
    not called. *)
Theorem createPerk_short_title_rejected
  (numberOfString : string -> coerced) (body : object) :
  get body "title" = None \/
  (exists s, get body "title" = Some (JString s) /\ (String.length s <= 1)%nat) ->
  exists message,
    createPerk numberOfString body = Ret (Respond 400 (Message message)).
Proof.
  intros H. unfold createPerk, validate, perkSchema.
  cbn [validate_keys]. unfold validate_item.
  cbn [base Joi_required Joi_min Joi_string].
  destruct H as [-> | [s [-> Hlen]]].
  - cbn. eauto.
  - unfold validate_present. cbn [valids only Joi_required Joi_min Joi_string required includes_value includes existsb].
    unfold validate_base. cbn [base rules app existsb is_min0 Z.eqb negb andb orb].
    destruct s as [| a [| b s']]; cbn in Hlen |- *; try lia; eauto.
Qed.

Lemma createPerk_short_title_rejected_witness :
  exists message,
    createPerk noNumericString [("title", JString "A"); ("merchant", JString "Acme")]
    = Ret (Respond 400 (Message message)).
Proof.
  apply (createPerk_short_title_rejected noNumericString
           [("title", JString "A"); ("merchant", JString "Acme")]).
  right. exists "A". split; [reflexivity | simpl; lia].
Defined.

(** ** createPerk: what reaches the store *)

Section JoiFacts.
Variable numberOfString : string -> coerced.

(** A key the schema does not declare is left as it is. *)
Lemma validate_keys_other (schema : list (string * joi_schema)) (key : string) :
  ~ In key (map fst schema) ->
  forall value value',
    validate_keys numberOfString schema value = Valid value' ->
    get value' key = get value key.
Proof.
  induction schema as [| [k sch] rest IH]; intros Hout value value' H.
  - simpl in H. now injection H as <-.
  - simpl in Hout, H.
    destruct (validate_item numberOfString k sch (get value k)) as [[v |] | m];
      try discriminate.
    + rewrite (IH (fun Hin => Hout (or_intror Hin)) _ _ H).
      apply get_set_other. intros ->. apply Hout. now left.
    + apply (IH (fun Hin => Hout (or_intror Hin)) _ _ H).
Qed.

(** A declared key holds the result of its own validation: the value
    validated or converted, or the default; without a result it stays as it
    was. *)
Lemma validate_keys_declared (schema : list (string * joi_schema)) :
  NoDup (map fst schema) ->
  forall key sch value value',
    In (key, sch) schema ->
    validate_keys numberOfString schema value = Valid value' ->
    exists r,
      validate_item numberOfString key sch (get value key) = Valid r /\
      get value' key = match r with Some v => Some v | None => get value key end.
Proof.
  induction schema as [| [k s] rest IH]; intros Hnd key sch value value' Hin H.
  - destruct Hin.
  - simpl in Hnd. inversion Hnd as [| ? ? Hk Hrest]; subst.
    simpl in H.
    destruct Hin as [Heq | Hin].
    + injection Heq as -> ->.
      destruct (validate_item numberOfString key sch (get value key))
        as [[v |] | m] eqn:E; try discriminate.
      * exists (Some v). split; [reflexivity |].
        rewrite (validate_keys_other rest key Hk _ _ H).
        apply get_set_same.
      * exists None. split; [reflexivity |].
        apply (validate_keys_other rest key Hk _ _ H).
    + assert (Hne : k <> key).
      { intros ->. apply Hk. apply (in_map fst) in Hin. exact Hin. }
      destruct (validate_item numberOfString k s (get value k))
        as [[v |] | m] eqn:E; try discriminate.
      * destruct (IH Hrest key sch _ _ Hin H) as [r [Hr Hget]].
        rewrite (get_set_other value k key v Hne) in Hr, Hget. eauto.
      * apply (IH Hrest key sch _ _ Hin H).
Qed.

Lemma validate_Valid_keys (schema : list (string * joi_schema)) (value value' : object) :
  validate numberOfString schema value = Valid value' ->
  validate_keys numberOfString schema value = Valid value'.
Proof.
  unfold validate.
  destruct (validate_keys numberOfString schema value); [| discriminate].
  destruct (unknown_key schema value); [discriminate | auto].
Qed.

Lemma perkSchema_NoDup : NoDup (map fst perkSchema).
Proof.
  simpl. repeat constructor; simpl; intuition discriminate.
Qed.

(** A body that passes the schema has a title of two characters or more. *)
Lemma validate_title (body value : object) :
  validate numberOfString perkSchema body = Valid value ->
  exists s, get body "title" = Some (JString s) /\ get value "title" = Some (JString s)
            /\ (2 <= String.length s)%nat.
Proof.
  intros H. apply validate_Valid_keys in H.
  destruct (validate_keys_declared perkSchema perkSchema_NoDup
              "title" (Joi_required (Joi_min 2 Joi_string)) body value)
    as [r [Hr Hget]]; [simpl; auto | exact H |].
  unfold validate_item in Hr. cbn [base Joi_required Joi_min Joi_string] in Hr.
  destruct (get body "title") as [v |] eqn:Ht; [| discriminate].
  destruct v as [| b | n | s | l | o]; try discriminate.
  exists s. cbn in Hr.
  destruct (String.eqb s ""); [discriminate |]. cbn in Hr.
  destruct (Z.of_nat (String.length s) <? 2) eqn:Hlen; [discriminate |].
  injection Hr as <-. repeat split; auto.
  apply Z.ltb_ge in Hlen. lia.
Qed.

(** C6.  When the body passes the schema and gives neither category nor
    discountPercent, the object handed to [Perk.create] has category "other"
    and discountPercent 0 (and the title is a string of two characters or
    more). *)
Theorem createPerk_defaults (body value : object) :
  validate numberOfString perkSchema body = Valid value ->
  get body "category" = None ->
  get body "discountPercent" = None ->
  (exists k, createPerk numberOfString body = Call (Create value) k) /\
  get value "category" = Some (JString "other") /\
  get value "discountPercent" = Some (num 0) /\
  (exists s, get body "title" = Some (JString s) /\ (2 <= String.length s)%nat).
Proof.
  intros Hval Hcat Hdisc. split; [| split; [| split]].
  - unfold createPerk. rewrite Hval. eauto.
  - apply validate_Valid_keys in Hval.
    destruct (validate_keys_declared perkSchema perkSchema_NoDup "category"
                (Joi_default (JString "other")
                   (Joi_valid ["food"; "tech"; "travel"; "fitness"; "other"] Joi_string))
                body value) as [r [Hr Hget]]; [simpl; auto | exact Hval |].
    rewrite Hcat in Hr. cbn in Hr. injection Hr as <-. exact Hget.
  - apply validate_Valid_keys in Hval.
    destruct (validate_keys_declared perkSchema perkSchema_NoDup "discountPercent"
                (Joi_default (num 0) (Joi_max 100 (Joi_min 0 Joi_number)))
                body value) as [r [Hr Hget]]; [simpl; auto 6 | exact Hval |].
    rewrite Hdisc in Hr. cbn in Hr. injection Hr as <-. exact Hget.
  - destruct (validate_title body value Hval) as [s [Hs [_ Hlen]]]. eauto.
Qed.

(** C8.  When the body passes the schema and the insert throws, the answer
    is 409 "Duplicate perk for this merchant" if the error carries the
    duplicate-key code 11000, and otherwise the error goes to [next]: the
    fallback responder. *)
Theorem createPerk_duplicate_conflict
  {S : Type} (store : forall X, storeE X -> S -> X * S)
  (body value : object) (s s' : S) (err : error) :
  validate numberOfString perkSchema body = Valid value ->
  store _ (Create value) s = (Throw err, s') ->
  run store (createPerk numberOfString body) s =
  (if strict_eq_num (code err) 11000
   then Respond 409 (Message "Duplicate perk for this merchant")
   else Next err, s').
Proof.
  intros Hval Hthrow. unfold createPerk. rewrite Hval.
  cbn [run]. rewrite Hthrow.
  destruct (strict_eq_num (code err) 11000); reflexivity.
Qed.

End JoiFacts.

Lemma createPerk_defaults_witness :
  (exists k, createPerk noNumericString [("title", JString "Gym")]
             = Call (Create [("title", JString "Gym");
                             ("category", JString "other");
                             ("discountPercent", num 0)]) k) /\
  get [("title", JString "Gym"); ("category", JString "other");
       ("discountPercent", num 0)] "category" = Some (JString "other") /\
  get [("title", JString "Gym"); ("category", JString "other");
       ("discountPercent", num 0)] "discountPercent" = Some (num 0) /\
  (exists s, get [("title", JString "Gym")] "title" = Some (JString s)
             /\ (2 <= String.length s)%nat).
Proof.
  apply (createPerk_defaults noNumericString [("title", JString "Gym")]);
    reflexivity.
Defined.

Lemma createPerk_duplicate_conflict_witness :
  run exec
      (createPerk noNumericString
         [("title", JString "Gym"); ("merchant", JString "Acme")])
      (mkCollection [gym] 1)
  = (Respond 409 (Message "Duplicate perk for this merchant"),
     mkCollection [gym] 1).
Proof.
  apply (createPerk_duplicate_conflict noNumericString exec
           [("title", JString "Gym"); ("merchant", JString "Acme")]
           [("title", JString "Gym"); ("merchant", JString "Acme");
            ("category", JString "other"); ("discountPercent", num 0)]
           (mkCollection [gym] 1) (mkCollection [gym] 1) duplicateKeyError);
    reflexivity.
Defined.

(** ** updatePerk: the field checks *)

Lemma In_push_if (c : bool) (m m' : string) (errors : list string) :
  In m (push_if c m' errors) <-> In m errors \/ (c = true /\ m = m').
Proof.
  unfold push_if. destruct c.
  - rewrite in_app_iff. simpl. intuition.
  - intuition discriminate.
Qed.

(** Every message of the list is the message of one check, and no message
    comes twice. *)
Lemma updateErrors_NoDup (updates : object) : NoDup (updateErrors updates).
Proof.
  unfold updateErrors, push_if.
  destruct (get updates "discountPercent");
    repeat match goal with
           | |- context [if ?c then _ else _] => destruct c
           end;
    simpl; repeat constructor; simpl; intuition discriminate.
Qed.

Lemma string_check (v : json) :
  truthy (Some v) = true ->
  match v with JString _ => false | _ => true end = true ->
  truthy (Some v) && negb (String.eqb (typeof (Some v)) "string") = true.
Proof.
  intros -> H. destruct v; try discriminate; reflexivity.
Qed.

Lemma category_check (v : json) :
  truthy (Some v) = true ->
  negb (includes_value categories (Some v)) = true ->
  truthy (Some v) && negb (includes_value categories (Some v)) = true.
Proof.
  now intros -> ->.
Qed.

Lemma number_check (v : json) :
  spec_violates "discountPercent" v = true ->
  negb (String.eqb (typeof (Some v)) "number")
  || lt_num (Some v) 0 || gt_num (Some v) 100 = true.
Proof.
  intros H. destruct v as [| b | [q | |] | s | l | o]; try reflexivity.
  cbn in H |- *. unfold num_gtb, num_ltb.
  apply negb_true_iff, andb_false_iff in H.
  destruct H as [-> | ->]; simpl; auto using orb_true_r.
Qed.

(** The checks report a field whose value breaks its constraint when the
    value is truthy, and discountPercent whatever the value. *)
Lemma updateErrors_reports (updates : object) (field : string) (v : json) :
  In field allowedUpdates ->
  get updates field = Some v ->
  spec_violates field v = true ->
  truthy (Some v) = true \/ field = "discountPercent" ->
  In (violation_message field) (updateErrors updates).
Proof.
  intros Hfield Hget Hbad Hseen.
  unfold allowedUpdates in Hfield. simpl in Hfield.
  unfold updateErrors.
  destruct Hfield as [<- | [<- | [<- | [<- | [<- | []]]]]];
    cbn [violation_message String.eqb Ascii.eqb Bool.eqb];
    rewrite Hget; cbv beta iota;
    try (destruct Hseen as [Hseen | Hseen]; [| discriminate Hseen]);
    try match goal with
        | |- context [match get ?u "discountPercent" with _ => _ end] =>
            destruct (get u "discountPercent")
        end;
    rewrite ?In_push_if;
    first [ rewrite (string_check v Hseen Hbad)
          | rewrite (category_check v Hseen Hbad)
          | rewrite (number_check v Hbad) ];
    intuition.
Qed.

(** C1, as the code has it.  For an update request with a well-formed
    identifier and only updatable fields in its body, in which two fields hold
    a value that breaks their constraint and is reported (a truthy value, or
    any value for discountPercent): the answer is 400 "Validation errors"
    with the list of the field checks, the handler is a [Ret] (the store is
    not called), and the list has the message of every such field of the body,
    each message once. *)
Theorem updatePerk_reports_all_violations
  (isValid : string -> bool) (id : string) (updates : object)
  (f1 f2 : string) (v1 v2 : json) :
  isValid id = true ->
  (forall key, In key (keys updates) -> In key allowedUpdates) ->
  f1 <> f2 ->
  get updates f1 = Some v1 -> spec_violates f1 v1 = true ->
  truthy (Some v1) = true \/ f1 = "discountPercent" ->
  get updates f2 = Some v2 -> spec_violates f2 v2 = true ->
  truthy (Some v2) = true \/ f2 = "discountPercent" ->
  updatePerk isValid id updates =
  Ret (Respond 400 (MessageErrors "Validation errors" (updateErrors updates))) /\
  (forall f v,
      get updates f = Some v -> spec_violates f v = true ->
      truthy (Some v) = true \/ f = "discountPercent" ->
      In (violation_message f) (updateErrors updates)) /\
  NoDup (updateErrors updates).
Proof.
  intros Hid Hallowed Hne Hg1 Hb1 Hs1 Hg2 Hb2 Hs2.
  assert (Hall : forall f v,
             get updates f = Some v -> spec_violates f v = true ->
             truthy (Some v) = true \/ f = "discountPercent" ->
             In (violation_message f) (updateErrors updates)).
  { intros f v Hg Hb Hs.
    apply (updateErrors_reports updates f v); auto.
    apply Hallowed. now apply (get_in_keys updates f v). }
  split; [| split; [exact Hall | apply updateErrors_NoDup]].
  unfold updatePerk. rewrite Hid. cbn [negb].
  rewrite (isValidUpdate_true updates Hallowed). cbn [negb].
  specialize (Hall f1 v1 Hg1 Hb1 Hs1).
  destruct (updateErrors updates) as [| m rest]; [destruct Hall | reflexivity].
Qed.

Lemma updatePerk_reports_all_violations_witness :
  updatePerk isValid24 "64b7f0c2a1d3e4f5a6b7c8d9"
    [("category", JString "invalid"); ("discountPercent", num 150)]
  = Ret (Respond 400
           (MessageErrors "Validation errors"
              ["Category must be one of: food, tech, travel, fitness, other";
               "Discount percent must be a number between 0 and 100"])).
Proof.
  apply (updatePerk_reports_all_violations isValid24 "64b7f0c2a1d3e4f5a6b7c8d9"
           [("category", JString "invalid"); ("discountPercent", num 150)]
           "category" "discountPercent" (JString "invalid") (num 150));
    try reflexivity.
  - simpl. unfold allowedUpdates. simpl. intuition.
  - discriminate.
  - left. reflexivity.
  - right. reflexivity.
Defined.

(** C1 as stated fails: the body has two updatable fields that break their
    constraints, and the answer carries no error list, a field outside the
    updatable ones being refused first. *)
Lemma updatePerk_violations_behind_whitelist :
  let updates := [("category", JString "invalid"); ("discountPercent", num 150);
                  ("createdAt", num 0)] in
  (In "category" allowedUpdates /\ In "discountPercent" allowedUpdates /\
   get updates "category" = Some (JString "invalid") /\
   spec_violates "category" (JString "invalid") = true /\
   get updates "discountPercent" = Some (num 150) /\
   spec_violates "discountPercent" (num 150) = true) /\
  updatePerk isValid24 "64b7f0c2a1d3e4f5a6b7c8d9" updates
  = Ret (Respond 400 (Message "Invalid fields provided for update")) /\
  ~ (exists errors,
        updatePerk isValid24 "64b7f0c2a1d3e4f5a6b7c8d9" updates
        = Ret (Respond 400 (MessageErrors "Validation errors" errors))).
Proof.
  cbv zeta. split; [| split].
  - unfold allowedUpdates. simpl. intuition.
  - reflexivity.
  - intros [errors H]. vm_compute in H. discriminate H.
Qed.

(** C3 fails on the code: a title that is the number 0 is not a string, the
    field checks report nothing for it, and the update goes to the store. *)
Theorem updateErrors_misses_falsy_title :
  let updates := [("title", num 0)] in
  get updates "title" = Some (num 0) /\
  spec_violates "title" (num 0) = true /\
  updateErrors updates = [] /\
  exists k,
    updatePerk isValid24 "64b7f0c2a1d3e4f5a6b7c8d9" updates
    = Call (FindByIdAndUpdate "64b7f0c2a1d3e4f5a6b7c8d9" updates
              (mkOptions true true)) k.
Proof.
  cbv zeta. repeat split. eexists. reflexivity.
Qed.

(** ** The collection *)

Lemma StronglySorted_impl {A : Type} (R R' : A -> A -> Prop) (l : list A) :
  (forall x y, R x y -> R' x y) -> StronglySorted R l -> StronglySorted R' l.
Proof.
  intros Himpl H. induction H as [| a l Hl IH Ha]; constructor; auto.
  eapply Forall_impl; [| exact Ha]. auto.
Qed.

Lemma newest_first_trans : Transitive (fun p q => is_true (NewestFirst.leb p q)).
Proof.
  intros p q r. unfold NewestFirst.leb, is_true.
  rewrite !Z.leb_le. lia.
Qed.

(** What a title query returns: the documents with that very title, each as
    often as the collection has it, newest first. *)
Lemma store_find_title (t : string) (c : collection) :
  (forall p, In p (store_find (Some t) c) <-> In p (docs c) /\ title p = t) /\
  Permutation (filter (fun p => String.eqb (title p) t) (docs c))
              (store_find (Some t) c) /\
  StronglySorted (fun p q => createdAt q <= createdAt p) (store_find (Some t) c).
Proof.
  unfold store_find.
  set (l := filter (fun p => String.eqb (title p) t) (docs c)).
  assert (Hperm : Permutation l (PerkSort.sort l)) by apply PerkSort.Permuted_sort.
  split; [| split; [exact Hperm |]].
  - intros p. split.
    + intros Hin. apply (Permutation_in p (Permutation_sym Hperm)) in Hin.
      unfold l in Hin. apply filter_In in Hin.
      destruct Hin as [Hin Ht]. now apply String.eqb_eq in Ht.
    + intros [Hin Ht]. apply (Permutation_in p Hperm).
      unfold l. apply filter_In. split; [exact Hin |].
      now apply String.eqb_eq.
  - apply (StronglySorted_impl (fun p q => is_true (NewestFirst.leb p q))).
    + intros p q H. now apply Z.leb_le.
    + apply PerkSort.StronglySorted_sort, newest_first_trans.
Qed.

(** C7, as the code has it.  A filter request with a title that is not the
    empty string is answered 200 with the documents whose title is equal to
    it, no other, each once per document of the collection, newest first; when
    no document has that title the answer is 200 with the empty list.  The
    collection is left as it was. *)
Theorem filterPerks_exact_title (t : string) (c : collection) :
  t <> "" ->
  exists perks,
    run exec (filterPerks (Some t)) c = (Respond 200 (PerkList perks), c) /\
    (forall p, In p perks <-> In p (docs c) /\ title p = t) /\
    Permutation (filter (fun p => String.eqb (title p) t) (docs c)) perks /\
    StronglySorted (fun p q => createdAt q <= createdAt p) perks /\
    ((forall p, In p (docs c) -> title p <> t) -> perks = []).
Proof.
  intros Ht. exists (store_find (Some t) c).
  destruct (store_find_title t c) as [Hin [Hperm Hsorted]].
  split; [| split; [exact Hin | split; [exact Hperm | split; [exact Hsorted |]]]].
  - unfold filterPerks. cbn [truthy].
    destruct (String.eqb_spec t "") as [-> | _]; [congruence | reflexivity].
  - intros Hnone. destruct (store_find (Some t) c) as [| p rest]; [reflexivity |].
    destruct (proj1 (Hin p) (or_introl eq_refl)) as [Hp Hpt].
    now destruct (Hnone p Hp).
Qed.

Lemma filterPerks_exact_title_witness :
  exists perks,
    run exec (filterPerks (Some "Gym")) (mkCollection [gym; cafe] 2)
    = (Respond 200 (PerkList perks), mkCollection [gym; cafe] 2) /\
    (forall p, In p perks <-> In p [gym; cafe] /\ title p = "Gym") /\
    Permutation (filter (fun p => String.eqb (title p) "Gym") [gym; cafe]) perks /\
    StronglySorted (fun p q => createdAt q <= createdAt p) perks /\
    ((forall p, In p [gym; cafe] -> title p <> "Gym") -> perks = []).
Proof.
  apply (filterPerks_exact_title "Gym" (mkCollection [gym; cafe] 2)).
  discriminate.
Defined.

(** C7 as stated fails: the empty title is a title value supplied, and the
    answer is not 200. *)
Lemma filterPerks_empty_title_not_200 :
  ~ (exists perks c',
        run exec (filterPerks (Some "")) (mkCollection [gym; cafe] 2)
        = (Respond 200 (PerkList perks), c')).
Proof.
  intros [perks [c' H]]. vm_compute in H. discriminate H.
Qed.

(** ** updatePerk and the collection *)

Lemma find_has_id (id : string) (l : list perk) (p : perk) :
  find (has_id id) l = Some p -> In p l /\ _id p = id.
Proof.
  intros H. apply find_some in H. destruct H as [Hin Hid].
  split; [exact Hin | now apply String.eqb_eq].
Qed.

Lemma replace_same (id : string) (l : list perk) (p : perk) :
  find (has_id id) l = Some p -> replace id p l = l.
Proof.
  induction l as [| q rest IH]; simpl; [reflexivity |].
  destruct (has_id id q).
  - now intros [= ->].
  - intros H. now rewrite IH.
Qed.

Lemma In_replace (id : string) (l : list perk) (p p' : perk) :
  find (has_id id) l = Some p -> In p' (replace id p' l).
Proof.
  induction l as [| q rest IH]; simpl; [discriminate |].
  destruct (has_id id q); simpl; auto.
Qed.

Lemma replace_In (id : string) (l : list perk) (p' q : perk) :
  In q (replace id p' l) -> q = p' \/ In q l.
Proof.
  induction l as [| p rest IH]; simpl; [tauto |].
  destruct (has_id id p); simpl; intuition.
Qed.

Lemma remove_In (id : string) (l : list perk) (q : perk) :
  In q (remove id l) -> In q l.
Proof.
  induction l as [| p rest IH]; simpl; [tauto |].
  destruct (has_id id p); simpl; intuition.
Qed.

Lemma assign_nothing (p : perk) :
  assign (mkChanges None None None None None) p = p.
Proof. now destruct p. Qed.

(** C10.  With a well-formed identifier and the empty body, the whitelist
    check and the field checks pass (no key is refused, the error list is
    empty) and the handler calls [findByIdAndUpdate] with the empty set of
    fields.  On the collection, a document with that identifier is answered
    200, as it was, and the collection is as it was; without such a document
    the answer is 404. *)
Theorem updatePerk_empty_body
  (isValid : string -> bool) (id : string) (c : collection) :
  isValid id = true ->
  forallb (fun key => includes allowedUpdates key) (keys []) = true /\
  updateErrors [] = [] /\
  (exists k, updatePerk isValid id []
             = Call (FindByIdAndUpdate id [] (mkOptions true true)) k) /\
  run exec (updatePerk isValid id []) c =
  (match find (has_id id) (docs c) with
   | Some p => Respond 200 (PerkDoc p)
   | None => Respond 404 (Message "Perk not found")
   end, c).
Proof.
  intros Hid. split; [reflexivity | split; [reflexivity | split]].
  - unfold updatePerk. rewrite Hid. cbn. eauto.
  - unfold updatePerk. rewrite Hid. cbn.
    unfold store_update. cbn.
    destruct (find (has_id id) (docs c)) as [p |] eqn:Hfind; [| reflexivity].
    rewrite assign_nothing, (replace_same id (docs c) p Hfind).
    now destruct c.
Qed.

Lemma updatePerk_empty_body_witness :
  run exec (updatePerk isValid24 (newId 1) []) (mkCollection [gym; cafe] 2)
  = (Respond 200 (PerkDoc cafe), mkCollection [gym; cafe] 2).
Proof.
  apply (updatePerk_empty_body isValid24 (newId 1) (mkCollection [gym; cafe] 2)).
  reflexivity.
Defined.

(** What [cast] makes of the title of the written object: nothing when there
    is none, and otherwise the title is a string, kept as it is, and of two
    characters or more when the validators run. *)
Lemma cast_title (validate : bool) (o : object) (ch : changes) :
  cast validate o = Ok ch ->
  match get o "title" with
  | None => set_title ch = None
  | Some v => exists s, v = JString s /\ set_title ch = Some s
                        /\ (validate = true -> title_ok s = true)
  end.
Proof.
  unfold cast, bind. intros H.
  destruct (get o "title") as [v |]; simpl in H.
  - destruct v as [| b | n | s | l | js]; try discriminate.
    destruct (negb validate || title_ok s) eqn:Hok; [| discriminate].
    repeat match type of H with
           | match ?r with Ok _ => _ | Throw _ => _ end = _ =>
               destruct r; [| discriminate]
           end.
    injection H as <-. exists s. repeat split.
    intros ->. exact Hok.
  - repeat match type of H with
           | match ?r with Ok _ => _ | Throw _ => _ end = _ =>
               destruct r; [| discriminate]
           end.
    now injection H as <-.
Qed.

Lemma title_ok_length (s : string) :
  title_ok s = true -> (2 <= String.length s)%nat.
Proof.
  unfold title_ok. intros H. now apply Nat.leb_le.
Qed.

(** The store operations keep the invariant on titles, the update because
    its validators run. *)
Lemma store_update_title_inv (id : string) (updates : object) (c : collection) :
  title_inv c ->
  title_inv (snd (store_update id updates (mkOptions true true) c)).
Proof.
  intros Hinv. unfold store_update. cbn [runValidators new].
  destruct (cast true updates) as [ch | err] eqn:Hcast; [| exact Hinv].
  destruct (find (has_id id) (docs c)) as [p |] eqn:Hfind; [| exact Hinv].
  intros q Hq. cbn in Hq. apply replace_In in Hq.
  destruct Hq as [-> | Hq]; [| now apply Hinv].
  apply cast_title in Hcast. cbn [assign title].
  destruct (get updates "title") as [v |].
  - destruct Hcast as [s [_ [-> Hok]]]. cbn. now apply title_ok_length, Hok.
  - rewrite Hcast. cbn. apply Hinv. now apply (find_has_id id).
Qed.

Lemma store_create_title_inv (doc : object) (c : collection) :
  title_inv c -> title_inv (snd (store_create doc c)).
Proof.
  intros Hinv. unfold store_create.
  destruct (cast true doc) as [ch | err] eqn:Hcast; [| exact Hinv].
  destruct (set_title ch) as [t |] eqn:Ht; [| exact Hinv].
  destruct (existsb _ (docs c)); [exact Hinv |].
  intros q Hq. cbn in Hq. apply in_app_iff in Hq.
  destruct Hq as [Hq | [<- | []]]; [now apply Hinv |].
  cbn. apply cast_title in Hcast.
  destruct (get doc "title") as [v |].
  - destruct Hcast as [s [_ [Hs Hok]]].
    rewrite Hs in Ht. injection Ht as <-. now apply title_ok_length, Hok.
  - congruence.
Qed.

Lemma store_delete_title_inv (id : string) (c : collection) :
  title_inv c -> title_inv (snd (store_delete id c)).
Proof.
  intros Hinv. unfold store_delete.
  destruct (find (has_id id) (docs c)); [| exact Hinv].
  intros q Hq. cbn in Hq. apply remove_In in Hq. now apply Hinv.
Qed.

(** A handler that ends after one store call leaves the collection as the
    call left it. *)
Lemma run_one_call {X : Type} (e : storeE X) (k : X -> prog outcome)
      (c : collection) :
  (forall x, exists o, k x = Ret o) ->
  snd (run exec (Call e k) c) = snd (exec X e c).
Proof.
  intros Hk. cbn [run]. destruct (exec X e c) as [x c'].
  destruct (Hk x) as [o ->]. reflexivity.
Qed.

Ltac ends_in_Ret :=
  intros [[?|]|?] || intros [?|?]; try match goal with
  | |- context [if ?b then _ else _] => destruct b
  end; eauto.

Lemma run_updatePerk_200
  (isValid : string -> bool) (id : string) (updates : object)
  (c : collection) (p : perk) :
  fst (run exec (updatePerk isValid id updates) c) = Respond 200 (PerkDoc p) ->
  exists ch p0,
    cast true updates = Ok ch /\ find (has_id id) (docs c) = Some p0 /\
    p = assign ch p0 /\
    snd (run exec (updatePerk isValid id updates) c)
    = mkCollection (replace id p (docs c)) (created c).
Proof.
  unfold updatePerk.
  destruct (negb (isValid id)); [discriminate |].
  destruct (negb (forallb _ (keys updates))); [discriminate |]. cbv zeta.
  destruct (0 <? List.length (updateErrors updates))%nat; [discriminate |].
  cbn [run exec]. unfold store_update. cbn [runValidators new].
  destruct (cast true updates) as [ch | err]; [| discriminate].
  destruct (find (has_id id) (docs c)) as [p0 |]; [| discriminate].
  cbn. intros [= <-]. exists ch, p0. repeat split.
Qed.

(** C4.  Every request keeps the invariant that the titles of the collection
    have two characters or more.  In particular, when an update request is
    accepted (the answer is 200 with the document) and title is among the
    fields of its body, the document answered is the one stored under the
    identifier, and its title is the string of the body, of two characters or
    more. *)
Theorem handlers_preserve_title_length
  (isValid : string -> bool) (numberOfString : string -> coerced)
  (req : request) (c : collection) :
  title_inv c ->
  title_inv (snd (run exec (handle isValid numberOfString req) c)) /\
  (forall id updates p,
      req = UpdatePerk id updates ->
      fst (run exec (handle isValid numberOfString req) c)
      = Respond 200 (PerkDoc p) ->
      In "title" (keys updates) ->
      In p (docs (snd (run exec (handle isValid numberOfString req) c))) /\
      _id p = id /\
      get updates "title" = Some (JString (title p)) /\
      (2 <= String.length (title p))%nat).
Proof.
  intros Hinv. split.
  - destruct req as [| t | id | body | id body | id]; cbn [handle].
    + unfold getAllPerks. rewrite run_one_call by ends_in_Ret. exact Hinv.
    + unfold filterPerks. destruct t as [t |]; [| exact Hinv].
      destruct (truthy (Some (JString t))); [| exact Hinv].
      rewrite run_one_call by ends_in_Ret. exact Hinv.
    + unfold getPerk. rewrite run_one_call by ends_in_Ret. exact Hinv.
    + unfold createPerk.
      destruct (validate numberOfString perkSchema body) as [value | m];
        [| exact Hinv].
      rewrite run_one_call by ends_in_Ret.
      now apply store_create_title_inv.
    + unfold updatePerk.
      destruct (negb (isValid id)); [exact Hinv |].
      destruct (negb (forallb _ (keys body))); [exact Hinv |]. cbv zeta.
      destruct (0 <? List.length (updateErrors body))%nat; [exact Hinv |].
      rewrite run_one_call by ends_in_Ret.
      now apply store_update_title_inv.
    + unfold deletePerk. rewrite run_one_call by ends_in_Ret.
      now apply store_delete_title_inv.
  - intros id updates p -> H200 Htitle. cbn [handle] in *.
    destruct (run_updatePerk_200 isValid id updates c p H200)
      as [ch [p0 [Hcast [Hfind [Hp Hc']]]]].
    rewrite Hc'. cbn [docs].
    destruct (in_keys_get updates "title" Htitle) as [v Hv].
    apply cast_title in Hcast. rewrite Hv in Hcast.
    destruct Hcast as [s [-> [Hset Hok]]].
    assert (Ht : title p = s) by (rewrite Hp; cbn; now rewrite Hset).
    repeat split.
    + now apply (In_replace id (docs c) p0).
    + rewrite Hp. cbn. now apply (find_has_id id (docs c)).
    + now rewrite Ht.
    + rewrite Ht. now apply title_ok_length, Hok.
Qed.

Lemma handlers_preserve_title_length_witness :
  let req := UpdatePerk (newId 0) [("title", JString "Gym pass")] in
  let c := mkCollection [gym; cafe] 2 in
  title_inv c /\
  title_inv (snd (run exec (handle isValid24 noNumericString req) c)) /\
  fst (run exec (handle isValid24 noNumericString req) c)
  = Respond 200 (PerkDoc gym_pass) /\
  In gym_pass (docs (snd (run exec (handle isValid24 noNumericString req) c))) /\
  _id gym_pass = newId 0 /\
  get [("title", JString "Gym pass")] "title" = Some (JString (title gym_pass)) /\
  (2 <= String.length (title gym_pass))%nat.
Proof.
  cbv zeta.
  assert (Hinv : title_inv (mkCollection [gym; cafe] 2)).
  { intros p [<- | [<- | []]]; simpl; lia. }
  destruct (handlers_preserve_title_length isValid24 noNumericString
              (UpdatePerk (newId 0) [("title", JString "Gym pass")])
              (mkCollection [gym; cafe] 2) Hinv) as [Hkept Hupdate].
  split; [exact Hinv | split; [exact Hkept | split; [reflexivity |]]].
  apply (Hupdate (newId 0) [("title", JString "Gym pass")] gym_pass);
    [reflexivity | reflexivity | simpl; auto].
Defined.

(** The length of the title is the store's to check: the handler hands a
    title of one character to [findByIdAndUpdate], whose validators stop it,
    and the error goes to [next]. *)
Example updatePerk_short_title_stopped_by_validators :
  run exec (updatePerk isValid24 (newId 0) [("title", JString "A")])
      (mkCollection [gym; cafe] 2)
  = (Next validationError, mkCollection [gym; cafe] 2).
Proof. reflexivity. Qed.

(** Without [runValidators] the same update would be stored. *)
Example store_update_without_validators :
  store_update (newId 0) [("title", JString "A")] (mkOptions true false)
               (mkCollection [gym] 1)
  = (Ok (Some (mkPerk (newId 0) "A" "" "fitness" (inject_Z 10) (Some "Acme") 0)),
     mkCollection [mkPerk (newId 0) "A" "" "fitness" (inject_Z 10) (Some "Acme") 0] 1).
Proof. reflexivity. Qed.

(** * Further properties of the controller *)

(** ** The handlers and the store, for any store *)

Section AnyStore.
Context {S : Type}.
Variable store : forall X, storeE X -> S -> X * S.
Variable isValid : string -> bool.
Variable numberOfString : string -> coerced.

Ltac step_store :=
  cbn [run];
  match goal with
  | |- context [store ?X ?e ?s] => destruct (store X e s) as [[[?|]|?] ?]
  | |- context [store ?X ?e ?s] => destruct (store X e s) as [[?|?] ?]
  end.

Ltac open_handler req :=
  destruct req as [| [t |] | id | body | id body | id];
  cbn [handle statuses];
  unfold getAllPerks, filterPerks, getPerk, createPerk, updatePerk, deletePerk;
  try match goal with
      | |- context [truthy ?v] => destruct (truthy v)
      end;
  try match goal with
      | |- context [validate ?f ?sch ?b] => destruct (validate f sch b)
      end;
  try match goal with
      | |- context [negb (isValid ?i)] => destruct (negb (isValid i))
      end;
  try match goal with
      | |- context [negb (forallb ?f ?l)] => destruct (negb (forallb f l))
      end;
  cbv zeta;
  try match goal with
      | |- context [(0 <? ?n)%nat] => destruct (0 <? n)%nat
      end.

(** X1.  The status codes of the API: whatever the store answers, each
    handler sends one of its own codes, or hands an error to [next]. *)
Theorem handle_statuses (req : request) (s : S) :
  match fst (run store (handle isValid numberOfString req) s) with
  | Respond status _ => In status (statuses req)
  | Next _ => True
  end.
Proof.
  open_handler req; try step_store; cbn;
    try match goal with
        | |- context [strict_eq_num ?c ?z] => destruct (strict_eq_num c z)
        end;
    cbn; auto 6.
Qed.

(** X2.  A request answered 400 has not reached the store: the store is in
    the state it was in. *)
Theorem bad_request_leaves_store (req : request) (s : S) (p : payload) :
  fst (run store (handle isValid numberOfString req) s) = Respond 400 p ->
  snd (run store (handle isValid numberOfString req) s) = s.
Proof.
  open_handler req; try step_store; cbn;
    try match goal with
        | |- context [strict_eq_num ?c ?z] => destruct (strict_eq_num c z)
        end;
    cbn; intros H; try discriminate H; reflexivity.
Qed.

(** X3.  No handler hides a failure of the store.  When every operation
    asked of the store throws [err], a handler either answers 400 without
    asking, or hands that very error to [next]; the one exception is the
    create handler on the duplicate-key code 11000, which answers 409.  The
    update handler has no such exception: a duplicate key met on update goes
    to [next]. *)
Theorem store_errors_forwarded (req : request) (s : S) (err : error) :
  (forall X (e : storeE X) s0, fst (store X e s0) = thrown e err) ->
  let out := fst (run store (handle isValid numberOfString req) s) in
  (exists p, out = Respond 400 p) \/
  out = Next err \/
  (exists body, req = CreatePerk body) /\
  strict_eq_num (code err) 11000 = true /\
  out = Respond 409 (Message "Duplicate perk for this merchant").
Proof.
  intros Hthrows. cbv zeta.
  open_handler req; cbn [run fst]; eauto;
    match goal with
    | |- context [store ?X ?e ?s] =>
        pose proof (Hthrows X e s) as Hx;
        destruct (store X e s) as [x s'];
        cbn [fst thrown] in Hx; subst x
    end;
    cbn; auto.
  destruct (strict_eq_num (code err) 11000); cbn; eauto 6.
Qed.


End AnyStore.

(** X4.  One round trip: a handler asks the store at most once, and what it
    asks is the operation of its request: the three GET handlers only read.
    The handlers for one document and for the list always ask, also for a
    malformed identifier, which only the update handler checks. *)
Theorem handle_one_round_trip
  (isValid : string -> bool) (numberOfString : string -> coerced)
  (req : request) :
  at_most_one_call (handle isValid numberOfString req) /\
  (first_op (handle isValid numberOfString req) = None \/
   first_op (handle isValid numberOfString req) = Some (request_kind req)) /\
  match req with
  | GetAllPerks | GetPerk _ | DeletePerk _ =>
      first_op (handle isValid numberOfString req) = Some (request_kind req)
  | _ => True
  end.
Proof.
  destruct req as [| [t |] | id | body | id body | id];
    cbn [handle request_kind];
    unfold getAllPerks, filterPerks, getPerk, createPerk, updatePerk, deletePerk;
    try match goal with
        | |- context [truthy ?v] => destruct (truthy v)
        end;
    try match goal with
        | |- context [validate ?f ?sch ?b] => destruct (validate f sch b)
        end;
    try match goal with
        | |- context [negb (isValid ?i)] => destruct (negb (isValid i))
        end;
    try match goal with
        | |- context [negb (forallb ?f ?l)] => destruct (negb (forallb f l))
        end;
    cbv zeta;
    try match goal with
        | |- context [(0 <? ?n)%nat] => destruct (0 <? n)%nat
        end;
    cbn; repeat split; auto; ends_in_Ret.
Qed.

Lemma bad_request_leaves_store_witness :
  snd (run exec (handle isValid24 noNumericString (UpdatePerk "42" []))
           (mkCollection [gym; cafe] 2))
  = mkCollection [gym; cafe] 2.
Proof.
  apply (bad_request_leaves_store exec isValid24 noNumericString
           (UpdatePerk "42" []) (mkCollection [gym; cafe] 2)
           (Message "Invalid perk ID")).
  reflexivity.
Defined.

Lemma store_errors_forwarded_witness :
  let out :=
    fst (run (failing duplicateKeyError)
             (handle isValid24 noNumericString
                (UpdatePerk (newId 0) [("title", JString "Cafe")])) tt) in
  (exists p, out = Respond 400 p) \/
  out = Next duplicateKeyError \/
  (exists body, UpdatePerk (newId 0) [("title", JString "Cafe")] = CreatePerk body) /\
  strict_eq_num (code duplicateKeyError) 11000 = true /\
  out = Respond 409 (Message "Duplicate perk for this merchant").
Proof.
  apply (store_errors_forwarded (failing duplicateKeyError) isValid24
           noNumericString (UpdatePerk (newId 0) [("title", JString "Cafe")])
           tt duplicateKeyError).
  intros X e s0. reflexivity.
Defined.

(** ** updatePerk: what the field checks let through *)

Lemma updateErrors_raised (updates : object) (m : string) :
  In m (updateErrors updates) ->
  exists field v,
    In field allowedUpdates /\ get updates field = Some v /\
    spec_violates field v = true /\ m = violation_message field.
Proof.
  unfold updateErrors. intros H.
  assert (Htext : forall f,
             truthy (get updates f)
             && negb (String.eqb (typeof (get updates f)) "string") = true ->
             exists v, get updates f = Some v
                       /\ match v with JString _ => false | _ => true end = true).
  { intros f Hc. destruct (get updates f) as [v |]; [| discriminate].
    exists v. split; [reflexivity |].
    destruct v; try reflexivity.
    cbn in Hc. now rewrite andb_false_r in Hc. }
  destruct (get updates "discountPercent") as [d |] eqn:Hd;
    rewrite ?In_push_if in H; simpl in H;
    repeat match type of H with
           | _ \/ _ => destruct H as [H | H]
           | _ /\ _ => destruct H as [Hc ->]
           | False => destruct H
           end.
  all: try (destruct (Htext _ Hc) as [v [Hv Hbad]]).
  all: try match type of Hv with
       | get _ ?f = Some ?v =>
           exists f, v; unfold allowedUpdates; simpl; now auto 8
       end.
  - destruct (get updates "category") as [v |] eqn:Hv; [| discriminate].
    exists "category", v. unfold allowedUpdates. simpl.
    apply andb_true_iff in Hc. destruct Hc as [_ Hc]. auto 8.
  - exists "discountPercent", d. unfold allowedUpdates. simpl.
    repeat split; auto 8.
    destruct d as [| b | [q | |] | s0 | l | o]; try reflexivity.
    cbn in Hc |- *. unfold num_gtb, num_ltb in Hc.
    apply negb_true_iff, andb_false_iff.
    apply orb_true_iff in Hc. destruct Hc as [Hc | Hc];
      apply negb_true_iff in Hc; auto.
  - destruct (get updates "category") as [v |] eqn:Hv; [| discriminate].
    exists "category", v. unfold allowedUpdates. simpl.
    apply andb_true_iff in Hc. destruct Hc as [_ Hc]. auto 8.
Qed.

(** X5.  The field checks raise no false alarm: every message of the error
    list is the message of an updatable field that the body gives with a
    value breaking the field's constraint. *)
Theorem updateErrors_sound (updates : object) (m : string) :
  In m (updateErrors updates) ->
  exists field v,
    In field allowedUpdates /\ get updates field = Some v /\
    spec_violates field v = true /\ m = violation_message field.
Proof.
  intros Hin. destruct (updateErrors_raised updates m Hin) as [f [v H]].
  exists f, v. exact H.
Qed.

Lemma updateErrors_sound_witness :
  exists field v,
    In field allowedUpdates /\
    get [("merchant", num 7); ("title", JString "Gym")] field = Some v /\
    spec_violates field v = true /\
    "Merchant must be a string" = violation_message field.
Proof.
  apply (updateErrors_sound [("merchant", num 7); ("title", JString "Gym")]
           "Merchant must be a string").
  simpl. auto.
Defined.

(** X6.  What an update brings to the store.  When the update handler asks
    the store, it asks [findByIdAndUpdate] for the identifier and the body as
    they came, with [new] and [runValidators] set; the identifier is well
    formed, every key of the body is an updatable field (never [_id] or
    [createdAt]), a discountPercent in the body is a number from 0 to 100,
    and a truthy title, description, merchant or category is a string, the
    category one of the five. *)
Theorem updatePerk_sends_checked_fields
  (isValid : string -> bool) (id : string) (updates : object) :
  first_op (updatePerk isValid id updates) = Some Updates ->
  (exists k, updatePerk isValid id updates
             = Call (FindByIdAndUpdate id updates (mkOptions true true)) k) /\
  isValid id = true /\
  (forall key, In key (keys updates) -> In key allowedUpdates) /\
  (forall v, get updates "discountPercent" = Some v ->
             exists q, v = JNumber (Fin q) /\ (0 <= q)%Q /\ (q <= 100)%Q) /\
  (forall v, get updates "category" = Some v -> truthy (Some v) = true ->
             exists s, v = JString s /\ In s categories) /\
  (forall field v, In field ["title"; "description"; "merchant"] ->
                   get updates field = Some v -> truthy (Some v) = true ->
                   exists s, v = JString s).
Proof.
  unfold updatePerk.
  destruct (isValid id) eqn:Hid; cbn [negb]; [| discriminate].
  destruct (forallb _ (keys updates)) eqn:Hkeys; cbn [negb]; [| discriminate].
  cbv zeta.
  destruct (updateErrors updates) as [| m rest] eqn:Herr; cbn; [| discriminate].
  intros _.
  assert (Hok : forall f v, In f allowedUpdates -> get updates f = Some v ->
                            truthy (Some v) = true \/ f = "discountPercent" ->
                            spec_violates f v = false).
  { intros f v Hf Hv Hseen.
    destruct (spec_violates f v) eqn:Hbad; [| reflexivity].
    pose proof (updateErrors_reports updates f v Hf Hv Hbad Hseen) as Hin.
    rewrite Herr in Hin. destruct Hin. }
  refine (conj _ (conj eq_refl (conj _ (conj _ (conj _ _))))).
  - eauto.
  - intros key Hin. rewrite forallb_forall in Hkeys.
    apply (proj1 (includes_In allowedUpdates key)), Hkeys, Hin.
  - intros v Hv.
    pose proof (Hok "discountPercent" v) as H.
    unfold allowedUpdates in H. simpl in H.
    specialize (H ltac:(auto 6) Hv (or_intror eq_refl)).
    destruct v as [| b | [q | |] | s | l | o]; try discriminate.
    exists q. apply negb_false_iff, andb_true_iff in H.
    destruct H as [H0 H100].
    apply Qle_bool_iff in H0. apply Qle_bool_iff in H100. auto.
  - intros v Hv Ht.
    pose proof (Hok "category" v) as H.
    unfold allowedUpdates in H. simpl in H.
    specialize (H ltac:(auto 6) Hv (or_introl Ht)).
    apply negb_false_iff in H.
    destruct v as [| b | n | s | l | o]; try discriminate.
    exists s. split; [reflexivity |].
    exact (proj1 (includes_In categories s) H).
  - intros field v Hfield Hv Ht.
    assert (Hf : In field allowedUpdates).
    { unfold allowedUpdates. simpl in Hfield |- *. intuition. }
    pose proof (Hok field v Hf Hv (or_introl Ht)) as H.
    simpl in Hfield.
    destruct Hfield as [<- | [<- | [<- | []]]]; cbn in H;
      destruct v; try discriminate; eauto.
Qed.

Lemma updatePerk_sends_checked_fields_witness :
  (exists k, updatePerk isValid24 (newId 0)
               [("discountPercent", num 25); ("merchant", JString "Acme")]
             = Call (FindByIdAndUpdate (newId 0)
                       [("discountPercent", num 25); ("merchant", JString "Acme")]
                       (mkOptions true true)) k) /\
  isValid24 (newId 0) = true /\
  (forall key,
      In key (keys [("discountPercent", num 25); ("merchant", JString "Acme")]) ->
      In key allowedUpdates) /\
  (forall v,
      get [("discountPercent", num 25); ("merchant", JString "Acme")]
          "discountPercent" = Some v ->
      exists q, v = JNumber (Fin q) /\ (0 <= q)%Q /\ (q <= 100)%Q) /\
  (forall v,
      get [("discountPercent", num 25); ("merchant", JString "Acme")]
          "category" = Some v ->
      truthy (Some v) = true -> exists s, v = JString s /\ In s categories) /\
  (forall field v,
      In field ["title"; "description"; "merchant"] ->
      get [("discountPercent", num 25); ("merchant", JString "Acme")] field
      = Some v ->
      truthy (Some v) = true -> exists s, v = JString s).
Proof.
  apply (updatePerk_sends_checked_fields isValid24 (newId 0)
           [("discountPercent", num 25); ("merchant", JString "Acme")]).
  reflexivity.
Defined.

(** ** createPerk: what the schema lets through *)

Lemma keys_set (o : object) (key k : string) (v : json) :
  In k (keys (set o key v)) -> k = key \/ In k (keys o).
Proof.
  induction o as [| [k0 w] rest IH]; simpl.
  - intuition.
  - destruct (String.eqb k0 key); simpl; intuition.
Qed.

Lemma set_get_id (o : object) (key : string) (v : json) :
  get o key = Some v -> set o key v = o.
Proof.
  induction o as [| [k w] rest IH]; simpl; [discriminate |].
  destruct (String.eqb k key).
  - now intros [= ->].
  - intros H. now rewrite IH.
Qed.

Lemma find_all_false {A : Type} (f : A -> bool) (l : list A) :
  (forall x, In x l -> f x = false) -> find f l = None.
Proof.
  induction l as [| a l IH]; simpl; [reflexivity |].
  intros H. rewrite (H a (or_introl eq_refl)). auto.
Qed.

Lemma schema_keys_allowed : map fst perkSchema = allowedUpdates.
Proof. reflexivity. Qed.

Section JoiMore.
Variable numberOfString : string -> coerced.

(** A value that is present and accepted is returned as it is. *)
Lemma validate_present_keeps (key : string) (sch : joi_schema) (v : json)
      (r : option json) :
  validate_present key sch (Some v) = Valid r -> r = Some v.
Proof.
  unfold validate_present.
  destruct (includes_value (valids sch) (Some v)); [now intros [= <-] |].
  destruct (only sch); [discriminate |].
  unfold validate_base.
  destruct (base sch); destruct v as [| b | [q | |] | s | l | o];
    try discriminate.
  - destruct (_ && _); [discriminate |].
    destruct (string_rules key (rules sch) s); [discriminate |].
    now intros [= <-].
  - destruct (_ && _); [| discriminate].
    destruct (number_rules key (rules sch) q); [discriminate |].
    now intros [= <-].
Qed.

(** The result of an item: the default of an absent item, or the item
    itself, or the number its string was converted to; in the two last cases
    the result passes as a value of its own. *)
Lemma validate_item_value (key : string) (sch : joi_schema)
      (item r : option json) :
  validate_item numberOfString key sch item = Valid r ->
  (item = None /\ r = default sch) \/
  (exists v, r = Some v /\ validate_present key sch (Some v) = Valid (Some v) /\
             (item = Some v \/
              base sch = JoiNumber /\ exists s, item = Some (JString s))).
Proof.
  unfold validate_item. intros H.
  assert (Hpresent : forall v, validate_present key sch (Some v) = Valid r ->
                               r = Some v
                               /\ validate_present key sch (Some v) = Valid (Some v)).
  { intros v Hv. pose proof (validate_present_keeps key sch v r Hv) as ->. auto. }
  destruct item as [v |].
  - right.
    destruct (base sch) eqn:Hbase.
    + destruct (Hpresent v) as [-> Hv].
      { destruct v; exact H. }
      exists v. auto.
    + destruct v as [| b | n | s | l | o];
        try (destruct (Hpresent _ H) as [-> Hv]; eexists; eauto; fail).
      destruct (numberOfString s) as [| | n]; try discriminate.
      * destruct (Hpresent _ H) as [-> Hv]. eexists; eauto.
      * destruct (Hpresent _ H) as [-> Hv]. exists (JNumber n). eauto 6.
  - left. split; [reflexivity |].
    assert (Hnone : validate_present key sch None = Valid r)
      by (destruct (base sch); exact H).
    unfold validate_present in Hnone.
    destruct (required sch); [discriminate |]. now injection Hnone as <-.
Qed.

(** What each key of [perkSchema] accepts as a value: nothing that breaks
    the constraint of the field, and for the title two characters or more. *)
Lemma perkSchema_accepts (key : string) (sch : joi_schema) (v : json) :
  In (key, sch) perkSchema ->
  validate_present key sch (Some v) = Valid (Some v) ->
  spec_violates key v = false /\
  (key = "title" -> exists s, v = JString s /\ (2 <= String.length s)%nat) /\
  (base sch = JoiNumber -> key = "discountPercent" /\ forall s, v <> JString s).
Proof.
  unfold perkSchema. simpl.
  intros [H | [H | [H | [H | [H | []]]]]]; injection H as <- <-; intros Hv;
    (split; [| split]); try discriminate.
  - destruct v; try discriminate. reflexivity.
  - intros _. destruct v as [| b | n | s | l | o]; try discriminate.
    exists s. split; [reflexivity |]. cbn in Hv.
    destruct (String.eqb s ""); [discriminate |]. cbn in Hv.
    destruct (Z.of_nat (String.length s) <? 2) eqn:Hlen; [discriminate |].
    apply Z.ltb_ge in Hlen. lia.
  - destruct v; try discriminate. reflexivity.
  - cbn in Hv |- *. unfold categories.
    destruct v as [| b | n | s | l | o]; try discriminate.
    cbn in Hv |- *.
    match type of Hv with
    | (if ?c then _ else _) = _ => destruct c; [reflexivity | discriminate]
    end.
  - destruct v as [| b | [q | |] | s | l | o]; try discriminate.
    cbn in Hv |- *.
    destruct (_ && _); [| discriminate]. cbn in Hv.
    destruct (Qle_bool (inject_Z 0) q); [| discriminate]. cbn in Hv.
    destruct (Qle_bool q (inject_Z 100)); [reflexivity | discriminate].
  - intros _. split; [reflexivity |].
    intros s ->. discriminate.
  - destruct v; try discriminate. reflexivity.
Qed.

Lemma perkSchema_default (key : string) (sch : joi_schema) (v : json) :
  In (key, sch) perkSchema ->
  default sch = Some v ->
  spec_violates key v = false /\ key <> "title" /\
  validate_item numberOfString key sch (Some v) = Valid (Some v).
Proof.
  unfold perkSchema. simpl.
  intros [H | [H | [H | [H | [H | []]]]]]; injection H as <- <-;
    cbn; intros [= <-]; repeat split; discriminate.
Qed.

Lemma validate_keys_keys (schema : list (string * joi_schema)) (k : string) :
  forall value value',
    validate_keys numberOfString schema value = Valid value' ->
    In k (keys value') -> In k (keys value) \/ In k (map fst schema).
Proof.
  induction schema as [| [key sch] rest IH]; intros value value' H Hin.
  - simpl in H. injection H as <-. auto.
  - simpl in H |- *.
    destruct (validate_item numberOfString key sch (get value key))
      as [[v |] | m]; try discriminate.
    + destruct (IH _ _ H Hin) as [Hk | Hk]; [| auto].
      apply keys_set in Hk. intuition.
    + destruct (IH _ _ H Hin); auto.
Qed.

Lemma validate_no_unknown (body value : object) (k : string) :
  validate numberOfString perkSchema body = Valid value ->
  In k (keys body) -> In k allowedUpdates.
Proof.
  unfold validate.
  destruct (validate_keys numberOfString perkSchema body); [| discriminate].
  destruct (unknown_key perkSchema body) eqn:Hu; [discriminate |].
  intros _ Hin. unfold unknown_key in Hu.
  pose proof (find_none _ _ Hu k Hin) as H.
  apply negb_false_iff in H. now apply includes_In in H.
Qed.

Lemma perkSchema_entry (k : string) :
  In k allowedUpdates -> exists sch, In (k, sch) perkSchema.
Proof.
  rewrite <- schema_keys_allowed. intros H.
  apply in_map_iff in H. destruct H as [[k' sch] [<- Hin]]. eauto.
Qed.

Lemma validated_field (body value : object) (k : string) (v : json) :
  validate numberOfString perkSchema body = Valid value ->
  get value k = Some v ->
  In k allowedUpdates /\ spec_violates k v = false.
Proof.
  intros Hval Hv.
  pose proof (validate_Valid_keys numberOfString _ _ _ Hval) as Hkeys.
  assert (Hk : In k allowedUpdates).
  { destruct (validate_keys_keys perkSchema k body value Hkeys
                (get_in_keys value k v Hv)) as [Hin | Hin].
    - exact (validate_no_unknown body value k Hval Hin).
    - now rewrite <- schema_keys_allowed. }
  split; [exact Hk |].
  destruct (perkSchema_entry k Hk) as [sch Hsch].
  destruct (validate_keys_declared numberOfString perkSchema perkSchema_NoDup
              k sch body value Hsch Hkeys) as [r [Hr Hget]].
  destruct (validate_item_value k sch _ _ Hr) as [[Hnone ->] | [v' [-> [Hp _]]]].
  - destruct (default sch) as [d |] eqn:Hd.
    + rewrite Hv in Hget. injection Hget as ->.
      now apply (perkSchema_default k sch d Hsch Hd).
    + congruence.
  - rewrite Hv in Hget. injection Hget as ->.
    now apply (perkSchema_accepts k sch v' Hsch Hp).
Qed.

Lemma validated_present (body value : object) (k : string) (sch : joi_schema)
      (d : json) :
  validate numberOfString perkSchema body = Valid value ->
  In (k, sch) perkSchema -> default sch = Some d ->
  exists v, get value k = Some v.
Proof.
  intros Hval Hsch Hd.
  pose proof (validate_Valid_keys numberOfString _ _ _ Hval) as Hkeys.
  destruct (validate_keys_declared numberOfString perkSchema perkSchema_NoDup
              k sch body value Hsch Hkeys) as [r [Hr Hget]].
  destruct (validate_item_value k sch _ _ Hr) as [[Hnone ->] | [v' [-> _]]].
  - rewrite Hd in Hget. eauto.
  - eauto.
Qed.

(** X7.  What a create brings to the store.  The object handed to
    [Perk.create] is a full, valid record: it has a title of two characters
    or more, a category of the five and a discountPercent from 0 to 100,
    given or defaulted, and every property it has is one of the five fields
    with a value that keeps the constraint of the field. *)
Theorem createPerk_sends_valid_record (body value : object) :
  validate numberOfString perkSchema body = Valid value ->
  (exists k, createPerk numberOfString body = Call (Create value) k) /\
  (exists s, get value "title" = Some (JString s) /\ (2 <= String.length s)%nat) /\
  (exists s, get value "category" = Some (JString s) /\ In s categories) /\
  (exists q, get value "discountPercent" = Some (JNumber (Fin q))
             /\ (0 <= q)%Q /\ (q <= 100)%Q) /\
  (forall k v, get value k = Some v ->
               In k allowedUpdates /\ spec_violates k v = false).
Proof.
  intros Hval.
  refine (conj _ (conj _ (conj _ (conj _ _)))).
  - unfold createPerk. rewrite Hval. eauto.
  - destruct (validate_title numberOfString body value Hval) as [s [_ [Hs Hlen]]].
    eauto.
  - destruct (validated_present body value "category"
                (Joi_default (JString "other")
                   (Joi_valid ["food"; "tech"; "travel"; "fitness"; "other"]
                      Joi_string))
                (JString "other") Hval) as [v Hv];
      [simpl; auto | reflexivity |].
    destruct (validated_field body value "category" v Hval Hv) as [_ Hok].
    apply negb_false_iff in Hok.
    destruct v as [| b | n | s | l | o]; try discriminate.
    exists s. split; [exact Hv |].
    exact (proj1 (includes_In categories s) Hok).
  - destruct (validated_present body value "discountPercent"
                (Joi_default (num 0) (Joi_max 100 (Joi_min 0 Joi_number)))
                (num 0) Hval) as [v Hv];
      [simpl; auto 6 | reflexivity |].
    destruct (validated_field body value "discountPercent" v Hval Hv) as [_ Hok].
    destruct v as [| b | [q | |] | s | l | o]; try discriminate.
    exists q. split; [exact Hv |].
    apply negb_false_iff, andb_true_iff in Hok. destruct Hok as [H0 H100].
    apply Qle_bool_iff in H0. apply Qle_bool_iff in H100. auto.
  - intros k v. exact (validated_field body value k v Hval).
Qed.





Lemma perkSchema_item_again (k : string) (sch : joi_schema)
      (item : option json) (v : json) :
  In (k, sch) perkSchema ->
  validate_item numberOfString k sch item = Valid (Some v) ->
  validate_item numberOfString k sch (Some v) = Valid (Some v).
Proof.
  intros Hsch Hr.
  destruct (validate_item_value k sch _ _ Hr) as [[_ Hd] | [v' [Hv' [Hp _]]]].
  - now apply (perkSchema_default k sch v Hsch).
  - injection Hv' as <-.
    destruct (perkSchema_accepts k sch v Hsch Hp) as [_ [_ Hnum]].
    unfold validate_item.
    destruct (base sch) eqn:Hbase; [destruct v; exact Hp |].
    destruct (Hnum eq_refl) as [_ Hns].
    destruct v as [| b | n | s | l | o]; try exact Hp.
    now destruct (Hns s).
Qed.

Lemma validate_keys_again (schema : list (string * joi_schema)) :
  NoDup (map fst schema) ->
  (forall k sch item v,
      In (k, sch) schema ->
      validate_item numberOfString k sch item = Valid (Some v) ->
      validate_item numberOfString k sch (Some v) = Valid (Some v)) ->
  forall value value',
    validate_keys numberOfString schema value = Valid value' ->
    validate_keys numberOfString schema value' = Valid value'.
Proof.
  induction schema as [| [k sch] rest IH]; intros Hnd Hitem value value' H.
  - reflexivity.
  - simpl in Hnd. inversion Hnd as [| ? ? Hk Hrest]; subst.
    assert (Hitem' : forall k0 sch0 item v,
               In (k0, sch0) rest ->
               validate_item numberOfString k0 sch0 item = Valid (Some v) ->
               validate_item numberOfString k0 sch0 (Some v) = Valid (Some v)).
    { intros k0 sch0 item v Hin. apply Hitem. now right. }
    simpl in H |- *.
    destruct (validate_item numberOfString k sch (get value k))
      as [[v |] | m] eqn:E; try discriminate.
    + rewrite (validate_keys_other numberOfString rest k Hk _ _ H).
      rewrite get_set_same.
      rewrite (Hitem k sch (get value k) v (or_introl eq_refl) E).
      rewrite set_get_id.
      * exact (IH Hrest Hitem' _ _ H).
      * rewrite (validate_keys_other numberOfString rest k Hk _ _ H).
        apply get_set_same.
    + rewrite (validate_keys_other numberOfString rest k Hk _ _ H), E.
      exact (IH Hrest Hitem' _ _ H).
Qed.

(** X11.  Validation normalises once: the object that comes out of the
    schema passes the schema again, and comes out as it is (the defaults are
    valid values, nothing is converted twice). *)
Theorem validate_idempotent (body value : object) :
  validate numberOfString perkSchema body = Valid value ->
  validate numberOfString perkSchema value = Valid value.
Proof.
  intros Hval.
  pose proof (validate_Valid_keys numberOfString _ _ _ Hval) as Hkeys.
  unfold validate.
  rewrite (validate_keys_again perkSchema perkSchema_NoDup
             perkSchema_item_again body value Hkeys).
  unfold unknown_key. rewrite find_all_false; [reflexivity |].
  intros k Hin. apply negb_false_iff, includes_In.
  rewrite schema_keys_allowed.
  destruct (in_keys_get value k Hin) as [v Hv].
  now apply (validated_field body value k v Hval).
Qed.

(** X12.  The create validation is the stricter one: an object that the
    create handler would hand to the store passes the whitelist and the field
    checks of the update handler, which hands it to the store as it is. *)
Theorem created_value_passes_update
  (isValid : string -> bool) (id : string) (body value : object) :
  validate numberOfString perkSchema body = Valid value ->
  isValid id = true ->
  updateErrors value = [] /\
  exists k, updatePerk isValid id value
            = Call (FindByIdAndUpdate id value (mkOptions true true)) k.
Proof.
  intros Hval Hid.
  assert (Herr : updateErrors value = []).
  { destruct (updateErrors value) as [| m rest] eqn:E; [reflexivity |].
    destruct (updateErrors_raised value m) as [f [v [_ [Hv [Hbad _]]]]].
    - rewrite E. now left.
    - destruct (validated_field body value f v Hval Hv) as [_ Hok]. congruence. }
  split; [exact Herr |].
  unfold updatePerk. rewrite Hid. cbn [negb].
  rewrite isValidUpdate_true.
  - cbn [negb]. cbv zeta. rewrite Herr. cbn. eauto.
  - intros key Hin. destruct (in_keys_get value key Hin) as [v Hv].
    now apply (validated_field body value key v Hval).
Qed.

End JoiMore.

Lemma createPerk_sends_valid_record_witness :
  let body := [("title", JString "Gym"); ("discountPercent", num 15)] in
  let value := [("title", JString "Gym"); ("discountPercent", num 15);
                ("category", JString "other")] in
  (exists k, createPerk noNumericString body = Call (Create value) k) /\
  (exists s, get value "title" = Some (JString s) /\ (2 <= String.length s)%nat) /\
  (exists s, get value "category" = Some (JString s) /\ In s categories) /\
  (exists q, get value "discountPercent" = Some (JNumber (Fin q))
             /\ (0 <= q)%Q /\ (q <= 100)%Q) /\
  (forall k v, get value k = Some v ->
               In k allowedUpdates /\ spec_violates k v = false).
Proof.
  cbv zeta.
  apply (createPerk_sends_valid_record noNumericString
           [("title", JString "Gym"); ("discountPercent", num 15)]).
  reflexivity.
Defined.




Lemma validate_idempotent_witness :
  validate noNumericString perkSchema
    [("title", JString "Gym"); ("category", JString "other");
     ("discountPercent", num 0)]
  = Valid [("title", JString "Gym"); ("category", JString "other");
           ("discountPercent", num 0)].
Proof.
  apply (validate_idempotent noNumericString [("title", JString "Gym")]).
  reflexivity.
Defined.

Lemma created_value_passes_update_witness :
  updateErrors [("title", JString "Gym"); ("category", JString "other");
                ("discountPercent", num 0)] = [] /\
  exists k,
    updatePerk isValid24 (newId 0)
      [("title", JString "Gym"); ("category", JString "other");
       ("discountPercent", num 0)]
    = Call (FindByIdAndUpdate (newId 0)
              [("title", JString "Gym"); ("category", JString "other");
               ("discountPercent", num 0)] (mkOptions true true)) k.
Proof.
  apply (created_value_passes_update noNumericString isValid24 (newId 0)
           [("title", JString "Gym")]);
    reflexivity.
Defined.

(** ** createPerk: one message *)

Lemma createPerk_title_cases
  (numberOfString : string -> coerced) (body : object) :
  createPerk numberOfString body =
  match get body "title" with
  | None => Ret (Respond 400 (Message (label "title" ++ " is required")))
  | Some (JString s) =>
      if String.eqb s ""
      then Ret (Respond 400 (Message (label "title" ++ " is not allowed to be empty")))
      else if (String.length s <? 2)%nat
           then Ret (Respond 400
                       (Message (label "title"
                                 ++ " length must be at least 2 characters long")))
           else createPerk numberOfString body
  | Some _ => Ret (Respond 400 (Message (label "title" ++ " must be a string")))
  end.
Proof.
  destruct (get body "title") as [v |] eqn:Ht.
  - destruct v as [| b | n | s | l | o];
      try (unfold createPerk, validate, perkSchema; cbn [validate_keys];
           rewrite Ht; reflexivity).
    destruct (String.eqb s "") eqn:He.
    + unfold createPerk, validate, perkSchema. cbn [validate_keys].
      rewrite Ht. cbn. rewrite He. reflexivity.
    + destruct (String.length s <? 2)%nat eqn:Hl; [| reflexivity].
      unfold createPerk, validate, perkSchema. cbn [validate_keys].
      rewrite Ht. cbn. rewrite He. cbn.
      apply Nat.ltb_lt in Hl.
      destruct s as [| a [| b s']]; cbn in Hl |- *; try lia; reflexivity.
  - unfold createPerk, validate, perkSchema. cbn [validate_keys].
    rewrite Ht. reflexivity.
Qed.

(** X14.  The create validation stops at the first field: a body without a
    title, or with a title that is not a string, is empty or has one
    character, gets the message of the title alone, whatever else the body
    holds, valid or not. *)
Theorem createPerk_title_message
  (numberOfString : string -> coerced) (body : object) :
  (get body "title" = None ->
   createPerk numberOfString body
   = Ret (Respond 400 (Message (label "title" ++ " is required")))) /\
  (forall v, get body "title" = Some v -> (forall s, v <> JString s) ->
   createPerk numberOfString body
   = Ret (Respond 400 (Message (label "title" ++ " must be a string")))) /\
  (get body "title" = Some (JString "") ->
   createPerk numberOfString body
   = Ret (Respond 400 (Message (label "title" ++ " is not allowed to be empty")))) /\
  (forall s, get body "title" = Some (JString s) -> String.length s = 1%nat ->
   createPerk numberOfString body
   = Ret (Respond 400
            (Message (label "title"
                      ++ " length must be at least 2 characters long")))).
Proof.
  pose proof (createPerk_title_cases numberOfString body) as H.
  refine (conj _ (conj _ (conj _ _))).
  - intros Ht. now rewrite Ht in H.
  - intros v Ht Hns. rewrite Ht in H.
    destruct v as [| b | n | s | l | o]; try exact H.
    now destruct (Hns s).
  - intros Ht. now rewrite Ht in H.
  - intros s Ht Hlen. rewrite Ht in H.
    destruct s as [| a [| b s']]; try discriminate Hlen. exact H.
Qed.

Lemma createPerk_title_message_witness :
  createPerk noNumericString
    [("category", JString "sports"); ("discountPercent", num 150)]
  = Ret (Respond 400 (Message (label "title" ++ " is required"))).
Proof.
  apply (proj1 (createPerk_title_message noNumericString
                  [("category", JString "sports"); ("discountPercent", num 150)])).
  reflexivity.
Defined.

(** ** updatePerk: the order of the messages *)

(** X15.  The error list follows the order of the checks (title,
    description, category, discountPercent, merchant), not the order of the
    keys in the body: it is the list of the five messages with those left out
    that were not raised. *)
Theorem updateErrors_in_check_order (updates : object) :
  updateErrors updates =
  filter (fun m => existsb (String.eqb m) (updateErrors updates))
         (map violation_message allowedUpdates).
Proof.
  unfold updateErrors, push_if.
  destruct (get updates "discountPercent");
    repeat match goal with
           | |- context [if ?c then _ else _] =>
               lazymatch c with
               | String.eqb _ _ => fail
               | Ascii.eqb _ _ => fail
               | _ => destruct c
               end
           end;
    reflexivity.
Qed.
